(** * chunkwm core state: the window and application registries

    A shallow embedding of [src/core/state.cpp].  The two [std::map]s of the
    file are finite maps, a record behind a pointer is the record itself (the
    fields state.cpp reads), and every call that leaves the file
    (accessibility library, event dispatcher, [printf], [usleep]) is put on a
    trace kept in the state, newest call first.  What the platform answers to
    such a call is read from a record of answers, [platform], that every
    function receives.

    In the sequential part the mutex [WindowsLock] is free at the entry and at
    the exit of every function, so [pthread_mutex_lock] and
    [pthread_mutex_unlock] do not appear there; module [Threads] models them,
    one source statement per step.  Memory is not modelled beyond the calls
    that destroy a record: [free(WindowList)] releases the array, not the
    records in it, and has no counterpart here. *)

From stdpp Require Import gmap strings list fin_maps sorting.

Open Scope string_scope.
Open Scope list_scope.

(** ** Data model *)

Definition pid_t := Z.
Definition uint32_t := N.

(** [AXUIElementRef] and the observer of an application are opaque platform
    handles; only their identity matters here. *)
Definition AXUIElementRef := positive.
Definition macos_observer := positive.
Definition CFStringRef := string.

Record ProcessSerialNumber := {
  highLongOfPSN : N;
  lowLongOfPSN : N
}.

(** The fields of [macos_application] and [macos_window] that state.cpp reads.
    Both structs have a field [Name] in the source; the application's is
    [AppName] here. *)
Record macos_application := {
  PID : pid_t;
  AppName : string;
  Observer : macos_observer
}.

Record macos_window := {
  Id : uint32_t;
  Name : string;
  Owner : macos_application;
  Ref : AXUIElementRef
}.

#[global] Instance ProcessSerialNumber_eq_dec : EqDecision ProcessSerialNumber.
Proof. solve_decision. Defined.

#[global] Instance macos_application_eq_dec : EqDecision macos_application.
Proof. solve_decision. Defined.

#[global] Instance macos_window_eq_dec : EqDecision macos_window.
Proof. solve_decision. Defined.

(** [AXError]: state.cpp compares against [kAXErrorSuccess] only. *)
Inductive AXError :=
| kAXErrorSuccess
| kAXErrorFailure
| kAXErrorIllegalArgument
| kAXErrorInvalidUIElement
| kAXErrorCannotComplete
| kAXErrorNotificationUnsupported
| kAXErrorNotificationAlreadyRegistered.

#[global] Instance AXError_eq_dec : EqDecision AXError.
Proof. solve_decision. Defined.

(** The notification names, with the values the platform headers give them. *)
Definition kAXWindowCreatedNotification : CFStringRef := "AXWindowCreated".
Definition kAXUIElementDestroyedNotification : CFStringRef := "AXUIElementDestroyed".
Definition kAXFocusedWindowChangedNotification : CFStringRef := "AXFocusedWindowChanged".
Definition kAXWindowMovedNotification : CFStringRef := "AXWindowMoved".
Definition kAXWindowResizedNotification : CFStringRef := "AXWindowResized".
Definition kAXWindowMiniaturizedNotification : CFStringRef := "AXWindowMiniaturized".
Definition kAXWindowDeminiaturizedNotification : CFStringRef := "AXWindowDeminiaturized".
Definition kAXTitleChangedNotification : CFStringRef := "AXTitleChanged".

Definition CFEqual (a b : CFStringRef) : bool := String.eqb a b.

(** The event kinds of [dispatch/event.h] that state.cpp constructs. *)
Inductive chunkwm_event :=
| ChunkWM_WindowCreated
| ChunkWM_WindowDestroyed
| ChunkWM_WindowFocused
| ChunkWM_WindowMoved
| ChunkWM_WindowResized
| ChunkWM_WindowMinimized
| ChunkWM_WindowDeminimized
| ChunkWM_WindowTitleChanged.

#[global] Instance chunkwm_event_eq_dec : EqDecision chunkwm_event.
Proof. solve_decision. Defined.

(** The [void *Reference] of an observer callback: the application for the
    notifications subscribed per application, the window for the destroy
    notification subscribed per window. *)
Inductive reference :=
| ReferenceApplication (Application : macos_application)
| ReferenceWindow (Window : macos_window).

(** ** The platform

    The answers of everything state.cpp calls but does not define.
    [AXLibWindowListForApplication] returns [NULL] or a [NULL]-terminated
    array, read here up to its terminator. *)
Record platform := {
  AXLibWindowListForApplication : macos_application → option (list macos_window);
  AXLibAddObserverNotification :
    macos_observer → AXUIElementRef → CFStringRef → macos_window → AXError;
  AXLibGetWindowID : AXUIElementRef → uint32_t;
  AXLibConstructWindow : macos_application → AXUIElementRef → macos_window;
  AXLibConstructApplication : ProcessSerialNumber → pid_t → string → macos_application;
  AXLibAddApplicationObserver : macos_application → bool;
  AXLibRunningProcesses : Z → list macos_application;
  pthread_mutex_init : Z;
  Process_Policy_Regular : Z;
  Process_Policy_LSUIElement : Z
}.

(** ** Calls that leave the file *)

Inductive printf_arg :=
| ArgString (s : string)
| ArgInt (d : Z).

Inductive call :=
| CallWindowListForApplication (Application : macos_application)
| CallAddObserverNotification (Obs : macos_observer) (Element : AXUIElementRef)
    (Notification : CFStringRef) (Reference : macos_window) (Success : AXError)
| CallRemoveObserverNotification (Obs : macos_observer) (Element : AXUIElementRef)
    (Notification : CFStringRef)
| CallDestroyWindow (Window : macos_window)
| CallGetWindowID (Element : AXUIElementRef)
| CallConstructWindow (Application : macos_application) (Element : AXUIElementRef)
| CallConstructApplication (PSN : ProcessSerialNumber) (Pid : pid_t) (ProcessName : string)
| CallAddApplicationObserver (Application : macos_application) (Attached : bool)
| CallDestroyApplication (Application : macos_application)
| CallRunningProcesses (ProcessPolicy : Z)
| CallConstructEvent (Event : chunkwm_event) (Window : macos_window)
| CallPrintf (Format : string) (Args : list printf_arg)
| CallUsleep (Microseconds : Z).

(** ** The state of the file: its two static maps, and the trace *)

Record state := {
  Applications : gmap pid_t macos_application;
  Windows : gmap uint32_t macos_window;
  Trace : list call
}.

(** Static storage starts empty. *)
Definition initial : state :=
  {| Applications := ∅; Windows := ∅; Trace := [] |}.

Definition emit (c : call) (s : state) : state :=
  {| Applications := Applications s; Windows := Windows s; Trace := c :: Trace s |}.

Definition set_Windows (m : gmap uint32_t macos_window) (s : state) : state :=
  {| Applications := Applications s; Windows := m; Trace := Trace s |}.

Definition set_Applications (m : gmap pid_t macos_application) (s : state) : state :=
  {| Applications := m; Windows := Windows s; Trace := Trace s |}.

(** ** state.cpp *)

Definition GetWindowByID (WindowId : uint32_t) (s : state) : option macos_window :=
  Windows s !! WindowId.

Definition AddWindowToCollection (os : platform) (Window : macos_window) (s : state)
  : bool * state :=
  if (Id Window =? 0)%N then (false, s)
  else
    let Success :=
      AXLibAddObserverNotification os (Observer (Owner Window)) (Ref Window)
        kAXUIElementDestroyedNotification Window in
    let s1 :=
      emit (CallAddObserverNotification (Observer (Owner Window)) (Ref Window)
              kAXUIElementDestroyedNotification Window Success) s in
    let Result := bool_decide (Success = kAXErrorSuccess) in
    if Result
    then (Result, set_Windows (<[Id Window := Window]> (Windows s1)) s1)
    else (Result, s1).

Definition RemoveWindowFromCollection (Window : macos_window) (s : state) : state :=
  let s1 := set_Windows (delete (Id Window) (Windows s)) s in
  emit (CallRemoveObserverNotification (Observer (Owner Window)) (Ref Window)
          kAXUIElementDestroyedNotification) s1.

(** The body of the [while] loop of [AddApplicationWindowsToCollection]. *)
Definition AddApplicationWindow (os : platform) (Window : macos_window) (s : state)
  : state :=
  match GetWindowByID (Id Window) s with
  | Some _ => emit (CallDestroyWindow Window) s
  | None =>
      let '(Added, s1) := AddWindowToCollection os Window s in
      if Added then s1
      else
        emit (CallDestroyWindow Window)
          (emit (CallPrintf "%s:%s is not destructible, ignore!\n"
                   [ArgString (AppName (Owner Window)); ArgString (Name Window)]) s1)
  end.

Fixpoint AddApplicationWindows (os : platform) (WindowList : list macos_window)
    (s : state) : state :=
  match WindowList with
  | [] => s
  | Window :: WindowList' =>
      AddApplicationWindows os WindowList' (AddApplicationWindow os Window s)
  end.

Definition AddApplicationWindowsToCollection (os : platform)
    (Application : macos_application) (s : state) : state :=
  let s1 := emit (CallWindowListForApplication Application) s in
  match AXLibWindowListForApplication os Application with
  | Some WindowList => AddApplicationWindows os WindowList s1
  | None => s1
  end.

Definition GetApplicationFromPID (Pid : pid_t) (s : state) : option macos_application :=
  Applications s !! Pid.

Definition AddApplication (Application : macos_application) (s : state) : state :=
  match Applications s !! PID Application with
  | None => set_Applications (<[PID Application := Application]> (Applications s)) s
  | Some _ => s
  end.

Definition ConstructEvent (Event : chunkwm_event) (Window : macos_window) (s : state)
  : state :=
  emit (CallConstructEvent Event Window) s.

(** A notification that resolves its window through the registry. *)
Definition LookupAndConstructEvent (os : platform) (Event : chunkwm_event)
    (Element : AXUIElementRef) (s : state) : state :=
  let WindowId := AXLibGetWindowID os Element in
  let s1 := emit (CallGetWindowID Element) s in
  match GetWindowByID WindowId s1 with
  | Some Window => ConstructEvent Event Window s1
  | None => s1
  end.

(** [OBSERVER_CALLBACK(ApplicationCallback)].  The two branches that use
    [Reference] cast it without a check; the result is [None] where the cast
    does not fit what the pointer refers to. *)
Definition ApplicationCallback (os : platform) (Element : AXUIElementRef)
    (Notification : CFStringRef) (Reference : reference) (s : state) : option state :=
  if CFEqual Notification kAXWindowCreatedNotification then
    match Reference with
    | ReferenceApplication Application =>
        let Window := AXLibConstructWindow os Application Element in
        Some (ConstructEvent ChunkWM_WindowCreated Window
                (emit (CallConstructWindow Application Element) s))
    | ReferenceWindow _ => None
    end
  else if CFEqual Notification kAXUIElementDestroyedNotification then
    match Reference with
    | ReferenceWindow Window => Some (ConstructEvent ChunkWM_WindowDestroyed Window s)
    | ReferenceApplication _ => None
    end
  else if CFEqual Notification kAXFocusedWindowChangedNotification then
    Some (LookupAndConstructEvent os ChunkWM_WindowFocused Element s)
  else if CFEqual Notification kAXWindowMovedNotification then
    Some (LookupAndConstructEvent os ChunkWM_WindowMoved Element s)
  else if CFEqual Notification kAXWindowResizedNotification then
    Some (LookupAndConstructEvent os ChunkWM_WindowResized Element s)
  else if CFEqual Notification kAXWindowMiniaturizedNotification then
    Some (LookupAndConstructEvent os ChunkWM_WindowMinimized Element s)
  else if CFEqual Notification kAXWindowDeminiaturizedNotification then
    Some (LookupAndConstructEvent os ChunkWM_WindowDeminimized Element s)
  else if CFEqual Notification kAXTitleChangedNotification then
    Some (LookupAndConstructEvent os ChunkWM_WindowTitleChanged Element s)
  else Some s.

(** [0.5 * MICROSEC_PER_SEC], converted to the integer [usleep] takes. *)
Definition half_second : Z := 500000.

Definition ConstructAndAddApplication (os : platform) (PSN : ProcessSerialNumber)
    (Pid : pid_t) (ProcessName : string) (s : state) : macos_application * state :=
  let Application := AXLibConstructApplication os PSN Pid ProcessName in
  let s1 := emit (CallConstructApplication PSN Pid ProcessName) s in
  let s2 := AddApplication Application s1 in
  let s3 := emit (CallUsleep half_second) s2 in
  let Attached := AXLibAddApplicationObserver os Application in
  let s4 := emit (CallAddApplicationObserver Application Attached) s3 in
  let s5 :=
    if Attached then
      emit (CallPrintf "%d:%s registered window notifications\n"
              [ArgInt (PID Application); ArgString (AppName Application)]) s4
    else
      let Warn :=
        CallPrintf "%d:%s could not register window notifications!!!\n"
          [ArgInt (PID Application); ArgString (AppName Application)] in
      emit Warn (emit Warn (emit Warn s4)) in
  (Application, AddApplicationWindowsToCollection os Application s5).

Definition RemoveAndDestroyApplication (Application : macos_application) (s : state)
  : state :=
  let s1 :=
    match Applications s !! PID Application with
    | Some _ => set_Applications (delete (PID Application) (Applications s)) s
    | None => s
    end in
  emit (CallDestroyApplication Application) s1.

(** A [std::map] is iterated in ascending key order. *)
Definition pid_le (a b : pid_t * macos_application) : Prop := (a.1 ≤ b.1)%Z.

#[global] Instance pid_le_dec : RelDecision pid_le.
Proof. intros a b. unfold pid_le. apply _. Defined.

Definition applications_in_order (m : gmap pid_t macos_application)
  : list macos_application :=
  snd <$> merge_sort pid_le (map_to_list m).

Fixpoint AddWindowsOfApplications (os : platform) (Apps : list macos_application)
    (s : state) : state :=
  match Apps with
  | [] => s
  | Application :: Apps' =>
      AddWindowsOfApplications os Apps' (AddApplicationWindowsToCollection os Application s)
  end.

Definition UpdateWindowCollection (os : platform) (s : state) : state :=
  AddWindowsOfApplications os (applications_in_order (Applications s)) s.

(** One iteration of the [for] loop of [InitState]. *)
Definition InitApplication (os : platform) (Application : macos_application) (s : state)
  : state :=
  let s1 := AddApplication Application s in
  let s2 :=
    emit (CallAddApplicationObserver Application
            (AXLibAddApplicationObserver os Application)) s1 in
  AddApplicationWindowsToCollection os Application s2.

Fixpoint InitApplications (os : platform) (RunningApplications : list macos_application)
    (s : state) : state :=
  match RunningApplications with
  | [] => s
  | Application :: Rest => InitApplications os Rest (InitApplication os Application s)
  end.

Definition InitState (os : platform) (s : state) : bool * state :=
  let Result := bool_decide (pthread_mutex_init os = 0%Z) in
  if Result then
    let ProcessPolicy :=
      Z.lor (Process_Policy_Regular os) (Process_Policy_LSUIElement os) in
    let RunningApplications := AXLibRunningProcesses os ProcessPolicy in
    (Result, InitApplications os RunningApplications
               (emit (CallRunningProcesses ProcessPolicy) s))
  else (Result, s).

(** ** Entry points and reachable states

    The functions other translation units and the platform can call.
    [UpdateWindowTitle] is left out: it replaces the [Name] of the record it is
    given, touches neither map and makes no call that subscribes, unsubscribes
    or destroys; no statement below depends on a title. *)

Inductive entry_point :=
| DoAddWindowToCollection (Window : macos_window)
| DoRemoveWindowFromCollection (Window : macos_window)
| DoApplicationCallback (Element : AXUIElementRef) (Notification : CFStringRef)
    (Reference : reference)
| DoConstructAndAddApplication (PSN : ProcessSerialNumber) (Pid : pid_t)
    (ProcessName : string)
| DoRemoveAndDestroyApplication (Application : macos_application)
| DoUpdateWindowCollection
| DoInitState.

Definition run (os : platform) (e : entry_point) (s : state) : option state :=
  match e with
  | DoAddWindowToCollection Window => Some (AddWindowToCollection os Window s).2
  | DoRemoveWindowFromCollection Window => Some (RemoveWindowFromCollection Window s)
  | DoApplicationCallback Element Notification Reference =>
      ApplicationCallback os Element Notification Reference s
  | DoConstructAndAddApplication PSN Pid ProcessName =>
      Some (ConstructAndAddApplication os PSN Pid ProcessName s).2
  | DoRemoveAndDestroyApplication Application =>
      Some (RemoveAndDestroyApplication Application s)
  | DoUpdateWindowCollection => Some (UpdateWindowCollection os s)
  | DoInitState => Some (InitState os s).2
  end.

(** The platform may answer differently at every call. *)
Inductive reachable : state → Prop :=
| reachable_initial : reachable initial
| reachable_run os e s s' : reachable s → run os e s = Some s' → reachable s'.

(** A sequence of calls against one platform. *)
Fixpoint run_all (os : platform) (es : list entry_point) (s : state) : option state :=
  match es with
  | [] => Some s
  | e :: es' => s' ← run os e s; run_all os es' s'
  end.

(** ** Views of the trace *)

Definition events (t : list call) : list (chunkwm_event * macos_window) :=
  omap (λ c, match c with CallConstructEvent Event Window => Some (Event, Window)
             | _ => None end) t.

Definition destroyed (Window : macos_window) (s : state) : Prop :=
  CallDestroyWindow Window ∈ Trace s.

Definition application_destroyed (Application : macos_application) (s : state) : Prop :=
  CallDestroyApplication Application ∈ Trace s.

(** Whether [AddWindowToCollection] admits a record: a nonzero identifier and a
    destroy-notification the platform accepts. *)
Definition subscribes (os : platform) (Window : macos_window) : bool :=
  bool_decide (AXLibAddObserverNotification os (Observer (Owner Window)) (Ref Window)
                 kAXUIElementDestroyedNotification Window = kAXErrorSuccess).

Definition admissible (os : platform) (Window : macos_window) : bool :=
  negb (Id Window =? 0)%N && subscribes os Window.

(** The number of subscriptions the platform accepted. *)
Definition is_registration (c : call) : bool :=
  match c with
  | CallAddObserverNotification _ _ _ _ Success => bool_decide (Success = kAXErrorSuccess)
  | _ => false
  end.

Definition registrations (t : list call) : nat :=
  length (List.filter is_registration t).

(** ** Predicates used by the statements *)

Definition no_zero (s : state) : Prop := Windows s !! 0%N = None.

Definition extends (s s' : state) : Prop := ∃ t, Trace s' = t ++ Trace s.

Definition admissible_ids (os : platform) (WindowList : list macos_window)
  : gset uint32_t :=
  list_to_set (Id <$> List.filter (admissible os) WindowList).

Definition listed (os : platform) (Application : macos_application) : list macos_window :=
  default [] (AXLibWindowListForApplication os Application).

Definition saturated (os : platform) (WindowList : list macos_window) (s : state)
  : Prop :=
  ∀ Window, Window ∈ WindowList → admissible os Window = true →
            is_Some (Windows s !! Id Window).

Definition saturated_all (os : platform) (Apps : list macos_application) (s : state)
  : Prop :=
  ∀ Application, Application ∈ Apps → saturated os (listed os Application) s.

(** The second platform lists no admissible window whose identifier the first
    did not list as admissible: the application is unchanged between the two.
    The records themselves may differ (a new enumeration builds new records,
    and titles may have changed). *)
Definition lists_nothing_new (os1 os2 : platform) : Prop :=
  ∀ Application Window,
    Window ∈ listed os2 Application → admissible os2 Window = true →
    ∃ Earlier, Earlier ∈ listed os1 Application ∧ Id Earlier = Id Window ∧
               admissible os1 Earlier = true.

(** The notifications of [ApplicationCallback] that find their window through
    [AXLibGetWindowID] and [GetWindowByID], each with the event it constructs. *)
Definition resolved_notifications : list (CFStringRef * chunkwm_event) :=
  [ (kAXFocusedWindowChangedNotification, ChunkWM_WindowFocused);
    (kAXWindowMovedNotification, ChunkWM_WindowMoved);
    (kAXWindowResizedNotification, ChunkWM_WindowResized);
    (kAXWindowMiniaturizedNotification, ChunkWM_WindowMinimized);
    (kAXWindowDeminiaturizedNotification, ChunkWM_WindowDeminimized);
    (kAXTitleChangedNotification, ChunkWM_WindowTitleChanged) ].

(** ** Destroy-notification subscriptions *)

(** Modelled from the spec: the platform's table of subscriptions behind
    [AXLibAddObserverNotification] and [AXLibRemoveObserverNotification], which
    state.cpp calls and does not define.  The spec gives the interface as
    [Subscribe(handle, notificationKind, context) -> success/failure] and
    [Unsubscribe(handle, notificationKind)]: a subscription is active from a
    [Subscribe] the platform accepted until the next [Unsubscribe] of the same
    observer, handle and notification.  Read off the trace, newest call first. *)
Fixpoint active_subscriptions (Obs : macos_observer) (Element : AXUIElementRef)
    (Notification : CFStringRef) (t : list call) : nat :=
  match t with
  | [] => 0
  | CallAddObserverNotification o e n _ Success :: t' =>
      if bool_decide (Success = kAXErrorSuccess)
         && bool_decide (o = Obs ∧ e = Element ∧ n = Notification)
      then S (active_subscriptions Obs Element Notification t')
      else active_subscriptions Obs Element Notification t'
  | CallRemoveObserverNotification o e n :: t' =>
      if bool_decide (o = Obs ∧ e = Element ∧ n = Notification)
      then 0
      else active_subscriptions Obs Element Notification t'
  | _ :: t' => active_subscriptions Obs Element Notification t'
  end.

Definition destroy_subscriptions (Window : macos_window) (s : state) : nat :=
  active_subscriptions (Observer (Owner Window)) (Ref Window)
    kAXUIElementDestroyedNotification (Trace s).

Definition is_subscription_call (c : call) : bool :=
  match c with
  | CallAddObserverNotification _ _ _ _ _ | CallRemoveObserverNotification _ _ _ => true
  | _ => false
  end.

Section Discipline.

(** The identifier of a window is a function of its handle: it is what
    [AXLibGetWindowID] reads from the handle when the router resolves a
    notification, and what a record built for that handle carries. *)
Variable wid : AXUIElementRef → uint32_t.

Definition well_identified (Window : macos_window) : Prop :=
  Id Window = wid (Ref Window).

Definition lists_well_identified (os : platform) : Prop :=
  ∀ Application WindowList Window,
    AXLibWindowListForApplication os Application = Some WindowList →
    Window ∈ WindowList → well_identified Window.

(** The record is registered: the registry holds, under its identifier, a
    record of the same handle and the same observer (the title may have been
    replaced since). *)
Definition registered (Window : macos_window) (s : state) : Prop :=
  ∃ Registered, GetWindowByID (Id Window) s = Some Registered ∧
                Ref Registered = Ref Window ∧
                Observer (Owner Registered) = Observer (Owner Window).

(** What the comments of state.cpp ask of a caller: [AddWindowToCollection]
    -- "Caller is responsible for making sure that the window is not a dupe";
    [RemoveWindowFromCollection] -- "Caller is responsible for passing a valid
    window!", a registered one.  Records come from the platform, so they are
    well identified. *)
Definition obligations (os : platform) (e : entry_point) (s : state) : Prop :=
  match e with
  | DoAddWindowToCollection Window =>
      well_identified Window ∧ GetWindowByID (Id Window) s = None
  | DoRemoveWindowFromCollection Window => registered Window s
  | DoApplicationCallback _ _ _ => True
  | DoRemoveAndDestroyApplication _ => True
  | DoConstructAndAddApplication _ _ _ | DoUpdateWindowCollection | DoInitState =>
      lists_well_identified os
  end.

Inductive disciplined : state → Prop :=
| disciplined_initial : disciplined initial
| disciplined_run os e s s' :
    disciplined s → obligations os e s → run os e s = Some s' → disciplined s'.

(** Every registered record carries its key and holds one subscription, and
    every active destroy-subscription belongs to a registered record. *)
Definition bracketed (s : state) : Prop :=
  (∀ WindowId Window, Windows s !! WindowId = Some Window →
     Id Window = WindowId ∧ well_identified Window ∧
     destroy_subscriptions Window s = 1) ∧
  (∀ Obs Element,
     0 < active_subscriptions Obs Element kAXUIElementDestroyedNotification (Trace s) →
     ∃ Window, Windows s !! wid Element = Some Window ∧
               Observer (Owner Window) = Obs ∧ Ref Window = Element).

End Discipline.


(** ** Threads

    [GetWindowByID], [AddWindowToCollection] and [RemoveWindowFromCollection]
    are the only functions of state.cpp that touch [Windows].  Here each of
    them runs one source statement per step, any number of threads interleave
    their steps, and an idle thread may call any of the three next.  A control
    point is named after the source line it is about to run.

    Neither a write to a [std::map] nor a lookup in it is atomic.  A write
    begins, the tree is relinked, and it ends; [Writing] holds the write that is
    under way.  A lookup finds an iterator (line 34) and reads the entry through
    it (line 35); [Readers] counts the lookups between the two.  A lookup that
    meets a write under way, and a write that begins while another write or a
    lookup is under way, is a data race: it is recorded in [Raced], and such a
    lookup observes [Partial] instead of an entry. *)

Module Threads.

Inductive write :=
| Inserting (Window : macos_window)
| Erasing (WindowId : uint32_t).

Inductive observation :=
| Entry (Result : option macos_window)
| Partial.

Record shared := {
  WindowsLock : option nat;
  Registry : gmap uint32_t macos_window;
  Writing : option write;
  Readers : nat;
  Raced : bool;
  Inserted : list macos_window
}.

Inductive point :=
| Idle
| GetWindowByID_33 (WindowId : uint32_t)
| GetWindowByID_34 (WindowId : uint32_t)
| GetWindowByID_35 (WindowId : uint32_t) (It : observation)
| GetWindowByID_36 (WindowId : uint32_t) (Result : observation)
| GetWindowByID_38 (WindowId : uint32_t) (Result : observation)
| AddWindowToCollection_46 (Window : macos_window)
| AddWindowToCollection_51 (Window : macos_window)
| AddWindowToCollection_58 (Window : macos_window)
| AddWindowToCollection_59 (Window : macos_window)
| AddWindowToCollection_59_writing (Window : macos_window)
| AddWindowToCollection_60 (Window : macos_window)
| AddWindowToCollection_63 (Result : bool)
| RemoveWindowFromCollection_69 (Window : macos_window)
| RemoveWindowFromCollection_70 (Window : macos_window)
| RemoveWindowFromCollection_70_writing (Window : macos_window)
| RemoveWindowFromCollection_71 (Window : macos_window)
| RemoveWindowFromCollection_73 (Window : macos_window).

Inductive request :=
| RequestGetWindowByID (WindowId : uint32_t)
| RequestAddWindowToCollection (Window : macos_window)
| RequestRemoveWindowFromCollection (Window : macos_window).

(** [pthread_mutex_lock]: taken by thread [t] when free, no step otherwise. *)
Definition lock (t : nat) (sh : shared) : option shared :=
  match WindowsLock sh with
  | None =>
      Some {| WindowsLock := Some t; Registry := Registry sh; Writing := Writing sh;
              Readers := Readers sh; Raced := Raced sh; Inserted := Inserted sh |}
  | Some _ => None
  end.

(** [pthread_mutex_unlock] *)
Definition unlock (sh : shared) : shared :=
  {| WindowsLock := None; Registry := Registry sh; Writing := Writing sh;
     Readers := Readers sh; Raced := Raced sh; Inserted := Inserted sh |}.

(** [Windows.find(Id)]: the lookup is under way from here. *)
Definition find (WindowId : uint32_t) (sh : shared) : observation * shared :=
  (match Writing sh with
   | None => Entry (Registry sh !! WindowId)
   | Some _ => Partial
   end,
   {| WindowsLock := WindowsLock sh; Registry := Registry sh; Writing := Writing sh;
      Readers := S (Readers sh);
      Raced := match Writing sh with Some _ => true | None => Raced sh end;
      Inserted := Inserted sh |}).

(** [(It != Windows.end()) ? It->second : NULL]: the lookup ends. *)
Definition dereference (sh : shared) : shared :=
  {| WindowsLock := WindowsLock sh; Registry := Registry sh; Writing := Writing sh;
     Readers := pred (Readers sh); Raced := Raced sh; Inserted := Inserted sh |}.

Definition begin_write (w : write) (sh : shared) : shared :=
  {| WindowsLock := WindowsLock sh; Registry := Registry sh; Writing := Some w;
     Readers := Readers sh;
     Raced := match Writing sh, Readers sh with
              | None, 0 => Raced sh
              | _, _ => true
              end;
     Inserted := Inserted sh |}.

Definition end_write (sh : shared) : shared :=
  match Writing sh with
  | Some (Inserting Window) =>
      {| WindowsLock := WindowsLock sh;
         Registry := <[Id Window := Window]> (Registry sh);
         Writing := None; Readers := Readers sh; Raced := Raced sh;
         Inserted := Window :: Inserted sh |}
  | Some (Erasing WindowId) =>
      {| WindowsLock := WindowsLock sh; Registry := delete WindowId (Registry sh);
         Writing := None; Readers := Readers sh; Raced := Raced sh;
         Inserted := Inserted sh |}
  | None => sh
  end.

(** One statement of thread [t]; [next] is the call an idle thread makes. *)
Definition step_thread (os : platform) (t : nat) (next : request) (p : point)
    (sh : shared) : option (point * shared) :=
  match p with
  | Idle =>
      Some (match next with
            | RequestGetWindowByID WindowId => GetWindowByID_33 WindowId
            | RequestAddWindowToCollection Window => AddWindowToCollection_46 Window
            | RequestRemoveWindowFromCollection Window =>
                RemoveWindowFromCollection_69 Window
            end, sh)
  | GetWindowByID_33 WindowId =>
      sh' ← lock t sh; Some (GetWindowByID_34 WindowId, sh')
  | GetWindowByID_34 WindowId =>
      let '(It, sh') := find WindowId sh in
      Some (GetWindowByID_35 WindowId It, sh')
  | GetWindowByID_35 WindowId It =>
      Some (GetWindowByID_36 WindowId It, dereference sh)
  | GetWindowByID_36 WindowId Result =>
      Some (GetWindowByID_38 WindowId Result, unlock sh)
  | GetWindowByID_38 _ _ => Some (Idle, sh)
  | AddWindowToCollection_46 Window =>
      Some (if (Id Window =? 0)%N then AddWindowToCollection_63 false
            else AddWindowToCollection_51 Window, sh)
  | AddWindowToCollection_51 Window =>
      Some (if subscribes os Window then AddWindowToCollection_58 Window
            else AddWindowToCollection_63 false, sh)
  | AddWindowToCollection_58 Window =>
      sh' ← lock t sh; Some (AddWindowToCollection_59 Window, sh')
  | AddWindowToCollection_59 Window =>
      Some (AddWindowToCollection_59_writing Window, begin_write (Inserting Window) sh)
  | AddWindowToCollection_59_writing Window =>
      Some (AddWindowToCollection_60 Window, end_write sh)
  | AddWindowToCollection_60 Window =>
      Some (AddWindowToCollection_63 true, unlock sh)
  | AddWindowToCollection_63 _ => Some (Idle, sh)
  | RemoveWindowFromCollection_69 Window =>
      sh' ← lock t sh; Some (RemoveWindowFromCollection_70 Window, sh')
  | RemoveWindowFromCollection_70 Window =>
      Some (RemoveWindowFromCollection_70_writing Window,
            begin_write (Erasing (Id Window)) sh)
  | RemoveWindowFromCollection_70_writing Window =>
      Some (RemoveWindowFromCollection_71 Window, end_write sh)
  | RemoveWindowFromCollection_71 Window =>
      Some (RemoveWindowFromCollection_73 Window, unlock sh)
  | RemoveWindowFromCollection_73 _ => Some (Idle, sh)
  end.

Record config := {
  Memory : shared;
  Pool : list point
}.

(** Thread [t] runs its next statement. *)
Definition step_config (os : platform) (t : nat) (next : request) (c : config)
  : option config :=
  p ← Pool c !! t;
  '(p', sh') ← step_thread os t next p (Memory c);
  Some {| Memory := sh'; Pool := <[t := p']> (Pool c) |}.

Inductive step : config → config → Prop :=
| step_of_thread os t next c c' : step_config os t next c = Some c' → step c c'.

(** A schedule: which thread runs, and what it calls if it is idle. *)
Fixpoint run_schedule (os : platform) (schedule : list (nat * request)) (c : config)
  : option config :=
  match schedule with
  | [] => Some c
  | (t, next) :: schedule' => c' ← step_config os t next c; run_schedule os schedule' c'
  end.

(** Thread [t] runs [k] statements in a row. *)
Fixpoint run_thread (os : platform) (t : nat) (next : request) (k : nat) (p : point)
    (sh : shared) : option (point * shared) :=
  match k with
  | 0 => Some (p, sh)
  | S k' => '(p', sh') ← step_thread os t next p sh; run_thread os t next k' p' sh'
  end.

(** [n] idle threads, the mutex initialised and free, the map empty. *)
Definition start (n : nat) : config :=
  {| Memory := {| WindowsLock := None; Registry := ∅; Writing := None;
                  Readers := 0; Raced := false; Inserted := [] |};
     Pool := replicate n Idle |}.

Inductive reachable (n : nat) : config → Prop :=
| reachable_start : reachable n (start n)
| reachable_step c c' : reachable n c → step c c' → reachable n c'.

(** The points between [pthread_mutex_lock] and [pthread_mutex_unlock]. *)
Definition in_critical_section (p : point) : bool :=
  match p with
  | GetWindowByID_34 _ | GetWindowByID_35 _ _ | GetWindowByID_36 _ _
  | AddWindowToCollection_59 _ | AddWindowToCollection_59_writing _
  | AddWindowToCollection_60 _
  | RemoveWindowFromCollection_70 _ | RemoveWindowFromCollection_70_writing _
  | RemoveWindowFromCollection_71 _ => true
  | _ => false
  end.

(** The points whose statement reads or writes [Windows]. *)
Definition accesses_Windows (p : point) : bool :=
  match p with
  | GetWindowByID_34 _ | GetWindowByID_35 _ _
  | AddWindowToCollection_59 _ | AddWindowToCollection_59_writing _
  | RemoveWindowFromCollection_70 _ | RemoveWindowFromCollection_70_writing _ => true
  | _ => false
  end.

(** The points whose statement reads [Windows]. *)
Definition reads_Windows (p : point) : bool :=
  match p with
  | GetWindowByID_34 _ | GetWindowByID_35 _ _ => true
  | _ => false
  end.

Definition is_writing (p : point) : bool :=
  match p with
  | AddWindowToCollection_59_writing _ | RemoveWindowFromCollection_70_writing _ => true
  | _ => false
  end.

Definition is_reading (p : point) : bool :=
  match p with
  | GetWindowByID_35 _ _ => true
  | _ => false
  end.

(** What a lookup may return: nothing, or a record whose insertion under the
    looked-up identifier has finished. *)
Definition fully_registered (WindowId : uint32_t) (Result : observation) (sh : shared)
  : Prop :=
  match Result with
  | Entry None => True
  | Entry (Some Window) => Id Window = WindowId ∧ Window ∈ Inserted sh
  | Partial => False
  end.

Definition lookup_result (p : point) : option (uint32_t * observation) :=
  match p with
  | GetWindowByID_35 WindowId Result | GetWindowByID_36 WindowId Result
  | GetWindowByID_38 WindowId Result => Some (WindowId, Result)
  | _ => None
  end.

Definition invariant (c : config) : Prop :=
  (∀ t p, Pool c !! t = Some p → in_critical_section p = true →
          WindowsLock (Memory c) = Some t) ∧
  (is_Some (Writing (Memory c)) →
   ∃ t p, WindowsLock (Memory c) = Some t ∧ Pool c !! t = Some p ∧
          is_writing p = true) ∧
  (Readers (Memory c) ≠ 0 →
   Readers (Memory c) = 1 ∧
   ∃ t p, WindowsLock (Memory c) = Some t ∧ Pool c !! t = Some p ∧
          is_reading p = true) ∧
  Raced (Memory c) = false ∧
  (∀ WindowId Window, Registry (Memory c) !! WindowId = Some Window →
                      Id Window = WindowId ∧ Window ∈ Inserted (Memory c)) ∧
  (∀ t p WindowId Result, Pool c !! t = Some p →
                          lookup_result p = Some (WindowId, Result) →
                          fully_registered WindowId Result (Memory c)).

End Threads.

(** ** A concrete platform

    One application, process 100, whose window list holds two ordinary windows
    (7 and 8), one whose destroy-notification the platform refuses (9), and one
    element without a window identifier. *)

Definition Finder : macos_application :=
  {| PID := 100%Z; AppName := "Finder"; Observer := 1%positive |}.

Definition Documents : macos_window :=
  {| Id := 7%N; Name := "Documents"; Owner := Finder; Ref := 7%positive |}.

Definition Downloads : macos_window :=
  {| Id := 8%N; Name := "Downloads"; Owner := Finder; Ref := 8%positive |}.

Definition Tooltip : macos_window :=
  {| Id := 9%N; Name := "Tooltip"; Owner := Finder; Ref := 9%positive |}.

Definition Ghost : macos_window :=
  {| Id := 0%N; Name := "Ghost"; Owner := Finder; Ref := 10%positive |}.

(** A second record for window 7, as a later enumeration builds it. *)
Definition Documents_again : macos_window :=
  {| Id := 7%N; Name := "Documents (2)"; Owner := Finder; Ref := 7%positive |}.

Definition desktop_wid (Element : AXUIElementRef) : uint32_t :=
  if decide (Element = 10%positive) then 0%N else Npos Element.

Definition desktop : platform :=
  {| AXLibWindowListForApplication Application :=
       if decide (Application = Finder)
       then Some [Documents; Downloads; Tooltip; Ghost]
       else None;
     AXLibAddObserverNotification Obs Element Notification Reference :=
       if decide (Element = 9%positive) then kAXErrorNotificationUnsupported
       else kAXErrorSuccess;
     AXLibGetWindowID := desktop_wid;
     AXLibConstructWindow Application Element :=
       {| Id := desktop_wid Element; Name := "Untitled"; Owner := Application;
          Ref := Element |};
     AXLibConstructApplication PSN Pid ProcessName :=
       {| PID := Pid; AppName := ProcessName; Observer := 1%positive |};
     AXLibAddApplicationObserver Application := true;
     AXLibRunningProcesses ProcessPolicy := [Finder];
     pthread_mutex_init := 0%Z;
     Process_Policy_Regular := 1%Z;
     Process_Policy_LSUIElement := 4%Z |}.

(** The same desktop at a later enumeration: new records for the same windows,
    one title changed, the refused window no longer listed. *)
Definition desktop_later : platform :=
  {| AXLibWindowListForApplication Application :=
       if decide (Application = Finder)
       then Some [Documents_again; Downloads; Ghost]
       else None;
     AXLibAddObserverNotification := AXLibAddObserverNotification desktop;
     AXLibGetWindowID := desktop_wid;
     AXLibConstructWindow := AXLibConstructWindow desktop;
     AXLibConstructApplication := AXLibConstructApplication desktop;
     AXLibAddApplicationObserver Application := true;
     AXLibRunningProcesses ProcessPolicy := [Finder];
     pthread_mutex_init := 0%Z;
     Process_Policy_Regular := 1%Z;
     Process_Policy_LSUIElement := 4%Z |}.

(** The same desktop with the same window lists, on which the platform now
    accepts the destroy-notification of every window, also of window 9. *)
Definition desktop_retry : platform :=
  {| AXLibWindowListForApplication := AXLibWindowListForApplication desktop;
     AXLibAddObserverNotification Obs Element Notification Reference :=
       kAXErrorSuccess;
     AXLibGetWindowID := desktop_wid;
     AXLibConstructWindow := AXLibConstructWindow desktop;
     AXLibConstructApplication := AXLibConstructApplication desktop;
     AXLibAddApplicationObserver Application := true;
     AXLibRunningProcesses ProcessPolicy := [Finder];
     pthread_mutex_init := 0%Z;
     Process_Policy_Regular := 1%Z;
     Process_Policy_LSUIElement := 4%Z |}.

(** A platform on which the mutex is fine and everything else fails. *)
Definition hostile : platform :=
  {| AXLibWindowListForApplication Application := Some [Documents; Ghost];
     AXLibAddObserverNotification Obs Element Notification Reference :=
       kAXErrorCannotComplete;
     AXLibGetWindowID := desktop_wid;
     AXLibConstructWindow := AXLibConstructWindow desktop;
     AXLibConstructApplication := AXLibConstructApplication desktop;
     AXLibAddApplicationObserver Application := false;
     AXLibRunningProcesses ProcessPolicy := [Finder];
     pthread_mutex_init := 0%Z;
     Process_Policy_Regular := 1%Z;
     Process_Policy_LSUIElement := 4%Z |}.

(** The state after [InitState] on [desktop]. *)
Definition desktop_started : state := (InitState desktop initial).2.

(** Two threads: thread 0 registers window 7 while thread 1 looks it up.
    Thread 1 asks for the mutex while thread 0 is writing, and gets it after
    thread 0 has unlocked. *)
Definition register_and_lookup : list (nat * Threads.request) :=
  [ (0, Threads.RequestAddWindowToCollection Documents);
    (0, Threads.RequestAddWindowToCollection Documents);
    (0, Threads.RequestAddWindowToCollection Documents);
    (0, Threads.RequestAddWindowToCollection Documents);
    (1, Threads.RequestGetWindowByID 7%N);
    (0, Threads.RequestAddWindowToCollection Documents);
    (0, Threads.RequestAddWindowToCollection Documents);
    (0, Threads.RequestAddWindowToCollection Documents);
    (1, Threads.RequestGetWindowByID 7%N);
    (1, Threads.RequestGetWindowByID 7%N);
    (1, Threads.RequestGetWindowByID 7%N);
    (1, Threads.RequestGetWindowByID 7%N) ].

Definition registered_and_looked_up : Threads.config :=
  default (Threads.start 2) (Threads.run_schedule desktop register_and_lookup
                               (Threads.start 2)).

(** Thread 0 in the middle of its insertion, thread 1 waiting for the mutex. *)
Definition writing_and_waiting : Threads.config :=
  default (Threads.start 2) (Threads.run_schedule desktop (take 6 register_and_lookup)
                               (Threads.start 2)).

(** ** Further views and predicates *)

(** The number of [AXLibDestroyWindow] calls. *)
Definition is_destroy_window (c : call) : bool :=
  match c with
  | CallDestroyWindow _ => true
  | _ => false
  end.

Definition destructions (t : list call) : nat :=
  length (List.filter is_destroy_window t).

(** The attempts to attach an application observer, newest first. *)
Definition observer_attempts (t : list call) : list (macos_application * bool) :=
  omap (λ c, match c with
             | CallAddApplicationObserver Application Attached =>
                 Some (Application, Attached)
             | _ => None end) t.

(** Every entry sits under the key its record carries. *)
Definition keyed (s : state) : Prop :=
  (∀ WindowId Window, Windows s !! WindowId = Some Window → Id Window = WindowId) ∧
  (∀ Pid Application, Applications s !! Pid = Some Application →
                      PID Application = Pid).

(** The notifications [ApplicationCallback] has a branch for. *)
Definition handled_notifications : list CFStringRef :=
  [ kAXWindowCreatedNotification; kAXUIElementDestroyedNotification;
    kAXFocusedWindowChangedNotification; kAXWindowMovedNotification;
    kAXWindowResizedNotification; kAXWindowMiniaturizedNotification;
    kAXWindowDeminiaturizedNotification; kAXTitleChangedNotification ].

(** All the windows the platform lists for some applications, in order. *)
Definition listed_all (os : platform) (Apps : list macos_application)
  : list macos_window :=
  Apps ≫= listed os.

(** The holder of the mutex is between a lock and its unlock. *)
Definition holder_in_critical_section (c : Threads.config) : Prop :=
  ∀ t, Threads.WindowsLock (Threads.Memory c) = Some t →
       ∃ p, Threads.Pool c !! t = Some p ∧ Threads.in_critical_section p = true.

(** The calls [ApplicationCallback] makes. *)
Definition is_router_call (c : call) : bool :=
  match c with
  | CallGetWindowID _ | CallConstructWindow _ _ | CallConstructEvent _ _ => true
  | _ => false
  end.

(** The calls discovery makes. *)
Definition is_discovery_call (c : call) : bool :=
  match c with
  | CallWindowListForApplication _ | CallAddObserverNotification _ _ _ _ _
  | CallPrintf _ _ | CallDestroyWindow _ => true
  | _ => false
  end.

(** The record a call settles: the one it destroys, or the one whose
    destroy-notification the platform accepts. *)
Definition settled (c : call) : option macos_window :=
  match c with
  | CallDestroyWindow Window => Some Window
  | CallAddObserverNotification _ _ _ Reference Success =>
      if bool_decide (Success = kAXErrorSuccess) then Some Reference else None
  | _ => None
  end.

(** The records settled by the calls of a trace, newest first. *)
Definition settlements (t : list call) : list macos_window := omap settled t.
(** ** What each function does to the two maps *)

Lemma AddWindowToCollection_result os Window s :
  (AddWindowToCollection os Window s).1 = admissible os Window.
Proof.
  unfold AddWindowToCollection, admissible, subscribes.
  destruct (Id Window =? 0)%N; [done|]. cbn. by case_bool_decide.
Qed.

Lemma AddWindowToCollection_Windows os Window s :
  Windows (AddWindowToCollection os Window s).2 =
  if admissible os Window then <[Id Window := Window]> (Windows s) else Windows s.
Proof.
  unfold AddWindowToCollection, admissible, subscribes.
  destruct (Id Window =? 0)%N; [done|]. cbn. by case_bool_decide.
Qed.

Lemma AddWindowToCollection_Applications os Window s :
  Applications (AddWindowToCollection os Window s).2 = Applications s.
Proof.
  unfold AddWindowToCollection.
  destruct (Id Window =? 0)%N; [done|]. cbn. by case_bool_decide.
Qed.

Lemma admissible_nonzero os Window : admissible os Window = true → Id Window ≠ 0%N.
Proof.
  unfold admissible. intros [H _]%andb_true_iff.
  by apply N.eqb_neq, negb_true_iff.
Qed.

Lemma AddApplicationWindow_Windows os Window s :
  Windows (AddApplicationWindow os Window s) =
  match Windows s !! Id Window with
  | Some _ => Windows s
  | None => if admissible os Window then <[Id Window := Window]> (Windows s)
            else Windows s
  end.
Proof.
  unfold AddApplicationWindow, GetWindowByID.
  destruct (Windows s !! Id Window) eqn:Hlook; [done|].
  pose proof (AddWindowToCollection_result os Window s) as Hr.
  pose proof (AddWindowToCollection_Windows os Window s) as Hw.
  destruct (AddWindowToCollection os Window s) as [Added s1]. cbn in Hr, Hw.
  subst Added. by destruct (admissible os Window).
Qed.

Lemma AddApplicationWindow_Applications os Window s :
  Applications (AddApplicationWindow os Window s) = Applications s.
Proof.
  unfold AddApplicationWindow.
  destruct (GetWindowByID (Id Window) s); [done|].
  pose proof (AddWindowToCollection_Applications os Window s) as Ha.
  destruct (AddWindowToCollection os Window s) as [[] s1]; done.
Qed.

Lemma AddApplicationWindows_Applications os WindowList s :
  Applications (AddApplicationWindows os WindowList s) = Applications s.
Proof.
  revert s. induction WindowList as [|Window WindowList IH]; intros s; [done|].
  cbn. by rewrite IH, AddApplicationWindow_Applications.
Qed.

Lemma AddApplicationWindowsToCollection_Applications os Application s :
  Applications (AddApplicationWindowsToCollection os Application s) = Applications s.
Proof.
  unfold AddApplicationWindowsToCollection.
  destruct (AXLibWindowListForApplication os Application); [|done].
  by rewrite AddApplicationWindows_Applications.
Qed.

Lemma AddWindowsOfApplications_Applications os Apps s :
  Applications (AddWindowsOfApplications os Apps s) = Applications s.
Proof.
  revert s. induction Apps as [|Application Apps IH]; intros s; [done|].
  cbn. by rewrite IH, AddApplicationWindowsToCollection_Applications.
Qed.

Lemma LookupAndConstructEvent_Windows os Event Element s :
  Windows (LookupAndConstructEvent os Event Element s) = Windows s.
Proof.
  unfold LookupAndConstructEvent.
  by destruct (GetWindowByID _ _).
Qed.

Lemma LookupAndConstructEvent_Applications os Event Element s :
  Applications (LookupAndConstructEvent os Event Element s) = Applications s.
Proof.
  unfold LookupAndConstructEvent.
  by destruct (GetWindowByID _ _).
Qed.

Lemma ApplicationCallback_maps os Element Notification Reference s s' :
  ApplicationCallback os Element Notification Reference s = Some s' →
  Windows s' = Windows s ∧ Applications s' = Applications s.
Proof.
  unfold ApplicationCallback. intros H.
  repeat match type of H with
         | (if ?b then _ else _) = _ => destruct b
         | match ?r with ReferenceApplication _ => _ | ReferenceWindow _ => _ end = _ =>
             destruct r
         end;
    simplify_eq; auto using LookupAndConstructEvent_Windows,
      LookupAndConstructEvent_Applications.
Qed.

Lemma AddApplication_Windows Application s :
  Windows (AddApplication Application s) = Windows s.
Proof. unfold AddApplication. by destruct (Applications s !! _). Qed.

(** ** Identifier 0 never enters the Window Registry *)

Lemma no_zero_AddWindowToCollection os Window s :
  no_zero s → no_zero (AddWindowToCollection os Window s).2.
Proof.
  unfold no_zero. rewrite AddWindowToCollection_Windows.
  destruct (admissible os Window) eqn:Hadm; [|done].
  intros H. rewrite lookup_insert_ne; [done|]. by apply admissible_nonzero in Hadm.
Qed.

Lemma no_zero_AddApplicationWindow os Window s :
  no_zero s → no_zero (AddApplicationWindow os Window s).
Proof.
  unfold no_zero. rewrite AddApplicationWindow_Windows.
  destruct (Windows s !! Id Window); [done|].
  destruct (admissible os Window) eqn:Hadm; [|done].
  intros H. rewrite lookup_insert_ne; [done|]. by apply admissible_nonzero in Hadm.
Qed.

Lemma no_zero_AddApplicationWindows os WindowList s :
  no_zero s → no_zero (AddApplicationWindows os WindowList s).
Proof.
  revert s. induction WindowList as [|Window WindowList IH]; intros s H; [done|].
  cbn. by apply IH, no_zero_AddApplicationWindow.
Qed.

Lemma no_zero_AddApplicationWindowsToCollection os Application s :
  no_zero s → no_zero (AddApplicationWindowsToCollection os Application s).
Proof.
  unfold AddApplicationWindowsToCollection. intros H.
  destruct (AXLibWindowListForApplication os Application); [|done].
  by apply no_zero_AddApplicationWindows.
Qed.

Lemma no_zero_AddWindowsOfApplications os Apps s :
  no_zero s → no_zero (AddWindowsOfApplications os Apps s).
Proof.
  revert s. induction Apps as [|Application Apps IH]; intros s H; [done|].
  cbn. by apply IH, no_zero_AddApplicationWindowsToCollection.
Qed.

Lemma no_zero_same_Windows s s' : Windows s' = Windows s → no_zero s → no_zero s'.
Proof. unfold no_zero. by intros ->. Qed.

Lemma no_zero_AddApplication Application s :
  no_zero s → no_zero (AddApplication Application s).
Proof. apply no_zero_same_Windows, AddApplication_Windows. Qed.

Lemma no_zero_InitApplications os Apps s :
  no_zero s → no_zero (InitApplications os Apps s).
Proof.
  revert s. induction Apps as [|Application Apps IH]; intros s H; [done|].
  cbn. apply IH. unfold InitApplication.
  apply no_zero_AddApplicationWindowsToCollection.
  by apply (no_zero_AddApplication Application) in H.
Qed.

Lemma no_zero_run os e s s' : no_zero s → run os e s = Some s' → no_zero s'.
Proof.
  intros H Hrun. destruct e; cbn in Hrun; simplify_eq.
  - by apply no_zero_AddWindowToCollection.
  - unfold no_zero, RemoveWindowFromCollection. cbn.
    rewrite lookup_delete. by case_decide.
  - apply ApplicationCallback_maps in Hrun as [Hw _].
    unfold no_zero. by rewrite Hw.
  - unfold ConstructAndAddApplication. cbn.
    apply no_zero_AddApplicationWindowsToCollection.
    destruct (AXLibAddApplicationObserver os _); cbn;
      by apply no_zero_AddApplication.
  - unfold no_zero, RemoveAndDestroyApplication.
    by destruct (Applications s !! _).
  - by apply no_zero_AddWindowsOfApplications.
  - unfold InitState. case_bool_decide; [|done]. cbn.
    by apply no_zero_InitApplications.
Qed.

Lemma reachable_no_zero s : reachable s → no_zero s.
Proof.
  induction 1 as [|os e s s' _ IH Hrun]; [done|].
  by eapply no_zero_run.
Qed.

(** ** The trace only grows *)

Lemma extends_refl s : extends s s.
Proof. by exists []. Qed.

Lemma extends_trans s1 s2 s3 : extends s1 s2 → extends s2 s3 → extends s1 s3.
Proof. intros [t1 H1] [t2 H2]. exists (t2 ++ t1). by rewrite H2, H1, app_assoc. Qed.

Lemma extends_emit c s : extends s (emit c s).
Proof. by exists [c]. Qed.

Lemma extends_destroyed Window s s' :
  extends s s' → destroyed Window s → destroyed Window s'.
Proof. unfold destroyed. intros [t ->] H. apply elem_of_app. by right. Qed.

Lemma extends_AddWindowToCollection os Window s :
  extends s (AddWindowToCollection os Window s).2.
Proof.
  unfold AddWindowToCollection.
  destruct (Id Window =? 0)%N; [apply extends_refl|]. cbn.
  case_bool_decide; by eexists [_].
Qed.

Lemma extends_AddApplicationWindow os Window s :
  extends s (AddApplicationWindow os Window s).
Proof.
  unfold AddApplicationWindow.
  destruct (GetWindowByID (Id Window) s); [apply extends_emit|].
  pose proof (extends_AddWindowToCollection os Window s) as He.
  destruct (AddWindowToCollection os Window s) as [[] s1]; [done|].
  eapply extends_trans; [exact He|]. by eexists [_; _].
Qed.

Lemma extends_AddApplicationWindows os WindowList s :
  extends s (AddApplicationWindows os WindowList s).
Proof.
  revert s. induction WindowList as [|Window WindowList IH]; intros s; [apply extends_refl|].
  cbn. eapply extends_trans; [apply extends_AddApplicationWindow | apply IH].
Qed.

(** ** Discovery, one window at a time *)

Lemma AddApplicationWindow_duplicate os Window s :
  is_Some (GetWindowByID (Id Window) s) →
  AddApplicationWindow os Window s = emit (CallDestroyWindow Window) s.
Proof. intros [w Hw]. unfold AddApplicationWindow. by rewrite Hw. Qed.

Lemma AddApplicationWindow_rejected os Window s :
  GetWindowByID (Id Window) s = None →
  (AddWindowToCollection os Window s).1 = false →
  Windows (AddApplicationWindow os Window s) = Windows s ∧
  destroyed Window (AddApplicationWindow os Window s).
Proof.
  intros Hnone Hfalse. split.
  - rewrite AddApplicationWindow_Windows. unfold GetWindowByID in Hnone.
    rewrite Hnone. rewrite AddWindowToCollection_result in Hfalse. by rewrite Hfalse.
  - unfold AddApplicationWindow. rewrite Hnone.
    destruct (AddWindowToCollection os Window s) as [Added s1]. cbn in Hfalse.
    subst Added. unfold destroyed. cbn. apply list_elem_of_here.
Qed.

Lemma AddApplicationWindow_accepted os Window s :
  GetWindowByID (Id Window) s = None →
  (AddWindowToCollection os Window s).1 = true →
  AddApplicationWindow os Window s = (AddWindowToCollection os Window s).2.
Proof.
  intros Hnone Htrue. unfold AddApplicationWindow. rewrite Hnone.
  destruct (AddWindowToCollection os Window s) as [Added s1]. cbn in Htrue.
  by subst Added.
Qed.

Lemma AddApplicationWindow_inadmissible_destroyed os Window s :
  admissible os Window = false → destroyed Window (AddApplicationWindow os Window s).
Proof.
  intros Hadm. destruct (GetWindowByID (Id Window) s) eqn:Hlook.
  - rewrite AddApplicationWindow_duplicate by done. apply list_elem_of_here.
  - apply AddApplicationWindow_rejected; [done|].
    by rewrite AddWindowToCollection_result.
Qed.

(** ** Discovery, the whole list *)

Lemma AddApplicationWindows_dom os WindowList s :
  dom (Windows (AddApplicationWindows os WindowList s)) =
  dom (Windows s) ∪ admissible_ids os WindowList.
Proof.
  unfold admissible_ids.
  revert s. induction WindowList as [|Window WindowList IH]; intros s; cbn.
  - by rewrite (right_id_L ∅ (∪)).
  - rewrite IH, AddApplicationWindow_Windows.
    destruct (Windows s !! Id Window) eqn:Hlook.
    + destruct (admissible os Window); cbn; [|done].
      assert ({[Id Window]} ⊆ dom (Windows s)) as Hin.
      { apply singleton_subseteq_l, elem_of_dom. eauto. }
      rewrite (assoc_L (∪)). f_equal. symmetry. rewrite (comm_L (∪)).
      by apply subseteq_union_1_L.
    + destruct (admissible os Window); cbn; [|done].
      rewrite dom_insert_L, (assoc_L (∪)). f_equal. apply (comm_L (∪)).
Qed.

Lemma AddApplicationWindow_preserves os Window s WindowId Registered :
  Windows s !! WindowId = Some Registered →
  Windows (AddApplicationWindow os Window s) !! WindowId = Some Registered.
Proof.
  intros H. rewrite AddApplicationWindow_Windows.
  destruct (Windows s !! Id Window) eqn:Hlook; [done|].
  destruct (admissible os Window); [|done].
  rewrite lookup_insert_ne; [done|]. congruence.
Qed.

Lemma AddApplicationWindows_preserves os WindowList s WindowId Registered :
  Windows s !! WindowId = Some Registered →
  Windows (AddApplicationWindows os WindowList s) !! WindowId = Some Registered.
Proof.
  revert s. induction WindowList as [|Window WindowList IH]; intros s H; [done|].
  cbn. by apply IH, AddApplicationWindow_preserves.
Qed.

Lemma AddApplicationWindows_inadmissible_destroyed os WindowList s Window :
  Window ∈ WindowList → admissible os Window = false →
  destroyed Window (AddApplicationWindows os WindowList s).
Proof.
  revert s. induction WindowList as [|Head WindowList IH]; intros s Hin Hadm.
  - by apply elem_of_nil in Hin.
  - cbn. apply elem_of_cons in Hin as [->|Hin]; [|by apply IH].
    eapply extends_destroyed; [apply extends_AddApplicationWindows|].
    by apply AddApplicationWindow_inadmissible_destroyed.
Qed.

Lemma AddApplicationWindows_origin os WindowList s WindowId Registered :
  Windows (AddApplicationWindows os WindowList s) !! WindowId = Some Registered →
  Windows s !! WindowId = Some Registered ∨
  (Registered ∈ WindowList ∧ Id Registered = WindowId ∧ admissible os Registered = true).
Proof.
  revert s. induction WindowList as [|Window WindowList IH]; intros s H; [by left|].
  cbn in H. apply IH in H as [H|(Hin & Hid & Hadm)].
  - rewrite AddApplicationWindow_Windows in H.
    destruct (Windows s !! Id Window) eqn:Hlook; [by left|].
    destruct (admissible os Window) eqn:Hadm; [|by left].
    apply lookup_insert_Some in H as [[<- <-]|[_ H]]; [|by left].
    right. split_and!; [apply list_elem_of_here|done|done].
  - right. split_and!; [by apply list_elem_of_further|done|done].
Qed.

(** Every listed record ends either destroyed or registered. *)
Lemma AddApplicationWindows_fate os WindowList s Window :
  Window ∈ WindowList →
  destroyed Window (AddApplicationWindows os WindowList s) ∨
  Windows (AddApplicationWindows os WindowList s) !! Id Window = Some Window.
Proof.
  revert s. induction WindowList as [|Head WindowList IH]; intros s Hin.
  - by apply elem_of_nil in Hin.
  - cbn. apply elem_of_cons in Hin as [->|Hin]; [|by apply IH].
    destruct (GetWindowByID (Id Head) s) eqn:Hlook.
    + left. eapply extends_destroyed; [apply extends_AddApplicationWindows|].
      rewrite AddApplicationWindow_duplicate by done. apply list_elem_of_here.
    + destruct (admissible os Head) eqn:Hadm.
      * right. apply AddApplicationWindows_preserves.
        rewrite AddApplicationWindow_Windows. unfold GetWindowByID in Hlook.
        rewrite Hlook, Hadm. apply lookup_insert_eq.
      * left. eapply extends_destroyed; [apply extends_AddApplicationWindows|].
        by apply AddApplicationWindow_inadmissible_destroyed.
Qed.

Lemma AddApplicationWindows_app os Before After s :
  AddApplicationWindows os (Before ++ After) s =
  AddApplicationWindows os After (AddApplicationWindows os Before s).
Proof.
  revert s. induction Before as [|Window Before IH]; intros s; [done|].
  cbn. apply IH.
Qed.

(** ** Discovery over a registry that already holds every admissible window *)

Lemma registrations_emit c s :
  registrations (Trace (emit c s)) =
  (if is_registration c then 1 else 0) + registrations (Trace s).
Proof. unfold registrations. cbn. by destruct (is_registration c). Qed.

Lemma AddApplicationWindow_saturated os Window s :
  (admissible os Window = true → is_Some (Windows s !! Id Window)) →
  Windows (AddApplicationWindow os Window s) = Windows s ∧
  registrations (Trace (AddApplicationWindow os Window s)) = registrations (Trace s).
Proof.
  intros Hsat. unfold AddApplicationWindow, GetWindowByID.
  destruct (Windows s !! Id Window) eqn:Hlook; [done|].
  assert (admissible os Window = false) as Hadm.
  { destruct (admissible os Window); [|done]. by destruct Hsat as [? ?]. }
  unfold admissible, subscribes in Hadm. unfold AddWindowToCollection.
  destruct (Id Window =? 0)%N; [done|]. cbn in Hadm |- *.
  rewrite Hadm. cbn. unfold registrations. cbn. by rewrite Hadm.
Qed.

Lemma AddApplicationWindows_saturated os WindowList s :
  saturated os WindowList s →
  Windows (AddApplicationWindows os WindowList s) = Windows s ∧
  registrations (Trace (AddApplicationWindows os WindowList s)) = registrations (Trace s).
Proof.
  revert s. induction WindowList as [|Window WindowList IH]; intros s Hsat; [done|].
  cbn. destruct (AddApplicationWindow_saturated os Window s) as [Hw Hr].
  { apply Hsat, list_elem_of_here. }
  destruct (IH (AddApplicationWindow os Window s)) as [Hw' Hr'].
  { intros w Hin Hadm. rewrite Hw. by apply Hsat; [apply list_elem_of_further|]. }
  split; congruence.
Qed.

Lemma AddApplicationWindows_saturates os WindowList s :
  saturated os WindowList (AddApplicationWindows os WindowList s).
Proof.
  intros w Hin Hadm. apply elem_of_dom. rewrite AddApplicationWindows_dom.
  apply elem_of_union_r. unfold admissible_ids.
  apply elem_of_list_to_set, list_elem_of_fmap. exists w. split; [done|].
  apply list_elem_of_In, filter_In. by rewrite <- list_elem_of_In.
Qed.

Lemma saturated_same_Windows os WindowList s s' :
  Windows s' = Windows s → saturated os WindowList s → saturated os WindowList s'.
Proof. unfold saturated. by intros ->. Qed.

Lemma AddApplicationWindowsToCollection_saturated os Application s :
  saturated os (listed os Application) s →
  Windows (AddApplicationWindowsToCollection os Application s) = Windows s ∧
  registrations (Trace (AddApplicationWindowsToCollection os Application s)) =
    registrations (Trace s).
Proof.
  unfold listed, AddApplicationWindowsToCollection. intros Hsat.
  destruct (AXLibWindowListForApplication os Application) as [WindowList|]; [|done].
  by apply (AddApplicationWindows_saturated os WindowList
              (emit (CallWindowListForApplication Application) s)).
Qed.

Lemma AddApplicationWindowsToCollection_saturates os Application s :
  saturated os (listed os Application) (AddApplicationWindowsToCollection os Application s).
Proof.
  unfold listed, AddApplicationWindowsToCollection.
  destruct (AXLibWindowListForApplication os Application) as [WindowList|].
  - apply AddApplicationWindows_saturates.
  - intros w Hin. by apply elem_of_nil in Hin.
Qed.

Lemma AddApplicationWindowsToCollection_preserves os Application s WindowId Registered :
  Windows s !! WindowId = Some Registered →
  Windows (AddApplicationWindowsToCollection os Application s) !! WindowId = Some Registered.
Proof.
  unfold AddApplicationWindowsToCollection. intros H.
  destruct (AXLibWindowListForApplication os Application); [|done].
  by apply AddApplicationWindows_preserves.
Qed.

Lemma AddWindowsOfApplications_preserves os Apps s WindowId Registered :
  Windows s !! WindowId = Some Registered →
  Windows (AddWindowsOfApplications os Apps s) !! WindowId = Some Registered.
Proof.
  revert s. induction Apps as [|Application Apps IH]; intros s H; [done|].
  cbn. by apply IH, AddApplicationWindowsToCollection_preserves.
Qed.

Lemma AddWindowsOfApplications_saturated os Apps s :
  saturated_all os Apps s →
  Windows (AddWindowsOfApplications os Apps s) = Windows s ∧
  registrations (Trace (AddWindowsOfApplications os Apps s)) = registrations (Trace s).
Proof.
  revert s. induction Apps as [|Application Apps IH]; intros s Hsat; [done|].
  cbn. destruct (AddApplicationWindowsToCollection_saturated os Application s) as [Hw Hr].
  { apply Hsat, list_elem_of_here. }
  destruct (IH (AddApplicationWindowsToCollection os Application s)) as [Hw' Hr'].
  { intros a Hin. eapply saturated_same_Windows; [exact Hw|].
    by apply Hsat, list_elem_of_further. }
  split; congruence.
Qed.

Lemma AddWindowsOfApplications_saturates os Apps s :
  saturated_all os Apps (AddWindowsOfApplications os Apps s).
Proof.
  revert s. induction Apps as [|Application Apps IH]; intros s a Hin.
  - by apply elem_of_nil in Hin.
  - cbn. apply elem_of_cons in Hin as [->|Hin]; [|by apply IH].
    intros w Hw Hadm.
    destruct (AddApplicationWindowsToCollection_saturates os Application s w Hw Hadm)
      as [Registered Hreg].
    exists Registered. by apply AddWindowsOfApplications_preserves.
Qed.

Lemma lists_nothing_new_refl os : lists_nothing_new os os.
Proof. intros Application Window Hin Hadm. by exists Window. Qed.

Lemma lists_nothing_new_saturated os1 os2 Application s :
  lists_nothing_new os1 os2 →
  saturated os1 (listed os1 Application) s →
  saturated os2 (listed os2 Application) s.
Proof.
  intros Hsame Hsat Window Hin Hadm.
  destruct (Hsame Application Window Hin Hadm) as (Earlier & Hin1 & Hid & Hadm1).
  rewrite <- Hid. by apply Hsat.
Qed.

(** ** Destroy-notification subscriptions *)

Section DisciplineFacts.

Variable wid : AXUIElementRef → uint32_t.

Abbreviation well_identified := (well_identified wid).
Abbreviation lists_well_identified := (lists_well_identified wid).
Abbreviation obligations := (obligations wid).
Abbreviation disciplined := (disciplined wid).
Abbreviation bracketed := (bracketed wid).

Lemma bracketed_initial : bracketed initial.
Proof. split; [intros ?? [=] | cbn; lia]. Qed.

Lemma bracketed_same s s' :
  Windows s' = Windows s → Trace s' = Trace s → bracketed s → bracketed s'.
Proof.
  unfold bracketed, destroy_subscriptions. intros -> ->. done.
Qed.

Lemma bracketed_emit c s :
  is_subscription_call c = false → bracketed s → bracketed (emit c s).
Proof.
  intros Hc [H1 H2]. split.
  - intros i w Hw. destruct (H1 i w Hw) as (?&?&Hs). split_and!; [done..|].
    unfold destroy_subscriptions in *. by destruct c.
  - intros o e Ha. apply H2. by destruct c.
Qed.

Lemma bracketed_AddWindowToCollection os Window s :
  well_identified Window → GetWindowByID (Id Window) s = None →
  bracketed s → bracketed (AddWindowToCollection os Window s).2.
Proof.
  unfold GetWindowByID. intros Hwf Hnone [H1 H2].
  unfold AddWindowToCollection.
  destruct (Id Window =? 0)%N; [done|]. cbn.
  case_bool_decide as Hsucc; cbn.
  - split; cbn.
    + intros i w Hw. unfold destroy_subscriptions. cbn.
      rewrite Hsucc, bool_decide_eq_true_2 by done. cbn.
      apply lookup_insert_Some in Hw as [[<- <-]|[Hne Hw]].
      * split_and!; [done..|].
        rewrite bool_decide_eq_true_2 by done. f_equal.
        destruct (active_subscriptions (Observer (Owner Window)) (Ref Window)
                    kAXUIElementDestroyedNotification (Trace s)) eqn:Ha; [done|].
        destruct (H2 (Observer (Owner Window)) (Ref Window)) as (w' & Hw' & _);
          [lia|]. rewrite <- Hwf in Hw'. congruence.
      * destruct (H1 i w Hw) as (Hi & Hwf' & Hs). split_and!; [done..|].
        rewrite bool_decide_eq_false_2; [done|].
        intros (_ & Href & _). unfold well_identified in *. congruence.
    + intros o e. rewrite Hsucc, bool_decide_eq_true_2 by done. cbn.
      case_bool_decide as Hkey.
      * destruct Hkey as (<- & <- & _). intros _. exists Window.
        rewrite <- Hwf. by rewrite lookup_insert_eq.
      * intros Ha. destruct (H2 o e Ha) as (w' & Hw' & Ho & He).
        exists w'. split; [|done]. rewrite lookup_insert_ne; [done|].
        intros Heq. rewrite Heq in Hnone. congruence.
  - split; cbn.
    + intros i w Hw. destruct (H1 i w Hw) as (?&?&Hs). split_and!; [done..|].
      unfold destroy_subscriptions in *. cbn.
      by rewrite bool_decide_eq_false_2.
    + intros o e. rewrite bool_decide_eq_false_2 by done. cbn. apply H2.
Qed.

Lemma bracketed_RemoveWindowFromCollection Window s :
  registered Window s →
  bracketed s → bracketed (RemoveWindowFromCollection Window s).
Proof.
  unfold registered, GetWindowByID. intros (w0 & Hreg & Href0 & Hobs0) [H1 H2].
  destruct (H1 _ _ Hreg) as (Hid0 & Hwf0 & _).
  assert (well_identified Window) as Hwf.
  { unfold well_identified in *. congruence. }
  unfold RemoveWindowFromCollection. split; cbn.
  - intros i w Hw. apply lookup_delete_Some in Hw as [Hne Hw].
    destruct (H1 i w Hw) as (Hi & Hwf' & Hs). split_and!; [done..|].
    unfold destroy_subscriptions. cbn.
    rewrite bool_decide_eq_false_2; [done|].
    intros (_ & Href & _). unfold well_identified in *. congruence.
  - intros o e. case_bool_decide as Hkey; [lia|]. intros Ha.
    destruct (H2 o e Ha) as (w' & Hw' & Ho & He).
    exists w'. split; [|done]. rewrite lookup_delete_ne; [done|].
    intros Heq. rewrite <- Heq in Hw'. simplify_eq. apply Hkey.
    by split_and!.
Qed.

Lemma bracketed_AddApplicationWindow os Window s :
  well_identified Window → bracketed s → bracketed (AddApplicationWindow os Window s).
Proof.
  intros Hwf Hb. unfold AddApplicationWindow.
  destruct (GetWindowByID (Id Window) s) eqn:Hlook.
  - by apply bracketed_emit.
  - pose proof (bracketed_AddWindowToCollection os Window s Hwf Hlook Hb) as Hb'.
    destruct (AddWindowToCollection os Window s) as [[] s1]; [done|].
    by do 2 (apply bracketed_emit; [done|]).
Qed.

Lemma bracketed_AddApplicationWindows os WindowList s :
  (∀ Window, Window ∈ WindowList → well_identified Window) →
  bracketed s → bracketed (AddApplicationWindows os WindowList s).
Proof.
  revert s. induction WindowList as [|Window WindowList IH]; intros s Hwf Hb; [done|].
  cbn. apply IH.
  - intros w Hin. by apply Hwf, list_elem_of_further.
  - apply bracketed_AddApplicationWindow; [|done]. apply Hwf, list_elem_of_here.
Qed.

Lemma bracketed_AddApplicationWindowsToCollection os Application s :
  lists_well_identified os →
  bracketed s → bracketed (AddApplicationWindowsToCollection os Application s).
Proof.
  intros Hos Hb. unfold AddApplicationWindowsToCollection.
  destruct (AXLibWindowListForApplication os Application) as [WindowList|] eqn:Hl.
  - apply bracketed_AddApplicationWindows; [|by apply bracketed_emit].
    intros w Hin. by eapply Hos.
  - by apply bracketed_emit.
Qed.

Lemma bracketed_AddWindowsOfApplications os Apps s :
  lists_well_identified os →
  bracketed s → bracketed (AddWindowsOfApplications os Apps s).
Proof.
  intros Hos. revert s. induction Apps as [|Application Apps IH]; intros s Hb; [done|].
  cbn. by apply IH, bracketed_AddApplicationWindowsToCollection.
Qed.

Lemma bracketed_AddApplication Application s :
  bracketed s → bracketed (AddApplication Application s).
Proof.
  apply bracketed_same; unfold AddApplication; by destruct (Applications s !! _).
Qed.

Lemma bracketed_InitApplications os Apps s :
  lists_well_identified os →
  bracketed s → bracketed (InitApplications os Apps s).
Proof.
  intros Hos. revert s. induction Apps as [|Application Apps IH]; intros s Hb; [done|].
  cbn. apply IH. unfold InitApplication.
  apply bracketed_AddApplicationWindowsToCollection; [done|].
  apply bracketed_emit; [done|]. by apply bracketed_AddApplication.
Qed.

Lemma bracketed_LookupAndConstructEvent os Event Element s :
  bracketed s → bracketed (LookupAndConstructEvent os Event Element s).
Proof.
  intros Hb. unfold LookupAndConstructEvent, ConstructEvent.
  destruct (GetWindowByID _ _); repeat (apply bracketed_emit; [done|]); done.
Qed.

Lemma bracketed_run os e s s' :
  obligations os e s → run os e s = Some s' → bracketed s → bracketed s'.
Proof.
  intros Hob Hrun Hb. destruct e; cbn in Hob, Hrun.
  - simplify_eq. destruct Hob. by apply bracketed_AddWindowToCollection.
  - simplify_eq. by apply bracketed_RemoveWindowFromCollection.
  - unfold ApplicationCallback, ConstructEvent in Hrun.
    repeat match type of Hrun with
           | (if ?b then _ else _) = _ => destruct b
           | match ?r with ReferenceApplication _ => _ | ReferenceWindow _ => _ end = _ =>
               destruct r
           end;
      simplify_eq; auto using bracketed_LookupAndConstructEvent;
      repeat (apply bracketed_emit; [done|]); done.
  - simplify_eq. unfold ConstructAndAddApplication. cbn.
    apply bracketed_AddApplicationWindowsToCollection; [done|].
    destruct (AXLibAddApplicationObserver os _);
      repeat (apply bracketed_emit; [done|]);
      by apply bracketed_AddApplication, bracketed_emit.
  - simplify_eq. unfold RemoveAndDestroyApplication.
    apply bracketed_emit; [done|].
    by destruct (Applications s !! _).
  - simplify_eq. by apply bracketed_AddWindowsOfApplications.
  - simplify_eq. unfold InitState. case_bool_decide; [|done]. cbn.
    apply bracketed_InitApplications; [done|]. by apply bracketed_emit.
Qed.

Lemma disciplined_bracketed s : disciplined s → bracketed s.
Proof.
  induction 1 as [|os e s s' _ IH Hob Hrun]; [apply bracketed_initial|].
  by eapply bracketed_run.
Qed.

End DisciplineFacts.

(** ** Sequences of calls *)

Lemma run_all_reachable os es s s' :
  reachable s → run_all os es s = Some s' → reachable s'.
Proof.
  revert s. induction es as [|e es IH]; intros s Hs Hrun; cbn in Hrun.
  - by simplify_eq.
  - destruct (run os e s) as [s1|] eqn:Hstep; cbn in Hrun; [|done].
    eapply IH; [|done]. by eapply reachable_run.
Qed.

(** ** The router *)

Lemma LookupAndConstructEvent_events os Event Element s :
  events (Trace (LookupAndConstructEvent os Event Element s)) =
  match GetWindowByID (AXLibGetWindowID os Element) s with
  | Some Window => (Event, Window) :: events (Trace s)
  | None => events (Trace s)
  end.
Proof.
  unfold LookupAndConstructEvent, GetWindowByID. cbn.
  by destruct (Windows s !! AXLibGetWindowID os Element).
Qed.

(** ** The application registry *)

Lemma AddApplication_Trace Application s :
  Trace (AddApplication Application s) = Trace s.
Proof. unfold AddApplication. by destruct (Applications s !! _). Qed.

(** ** What registering and unregistering do to the subscriptions *)

Lemma AddWindowToCollection_active os Window s Obs Element Notification :
  active_subscriptions Obs Element Notification
    (Trace (AddWindowToCollection os Window s).2) =
  (if admissible os Window
      && bool_decide (Observer (Owner Window) = Obs ∧ Ref Window = Element ∧
                      kAXUIElementDestroyedNotification = Notification)
   then 1 else 0)
  + active_subscriptions Obs Element Notification (Trace s).
Proof.
  unfold AddWindowToCollection, admissible, subscribes.
  destruct (Id Window =? 0)%N; [done|]. cbn.
  case_bool_decide as Hs; cbn.
  - rewrite (bool_decide_eq_true_2 _ Hs). cbn. by case_bool_decide.
  - by rewrite (bool_decide_eq_false_2 _ Hs).
Qed.

Lemma AddWindowToCollection_registrations os Window s :
  registrations (Trace (AddWindowToCollection os Window s).2) =
  (if admissible os Window then 1 else 0) + registrations (Trace s).
Proof.
  unfold AddWindowToCollection, admissible, subscribes, registrations.
  destruct (Id Window =? 0)%N; [done|]. cbn.
  case_bool_decide as Hs; cbn; rewrite ?Hs; cbn; [done|].
  by rewrite bool_decide_eq_false_2.
Qed.

Lemma RemoveWindowFromCollection_active Window s Obs Element Notification :
  active_subscriptions Obs Element Notification
    (Trace (RemoveWindowFromCollection Window s)) =
  if bool_decide (Observer (Owner Window) = Obs ∧ Ref Window = Element ∧
                  kAXUIElementDestroyedNotification = Notification)
  then 0 else active_subscriptions Obs Element Notification (Trace s).
Proof. done. Qed.

Lemma desktop_later_lists_nothing_new : lists_nothing_new desktop desktop_later.
Proof.
  intros Application Window Hin Hadm. unfold listed in *. cbn in *.
  case_decide; cbn in *; [|by apply elem_of_nil in Hin].
  apply elem_of_cons in Hin as [->|Hin]; [exists Documents; split_and!; [|done..]|].
  { apply list_elem_of_here. }
  apply elem_of_cons in Hin as [->|Hin]; [exists Downloads; split_and!; [|done..]|].
  { apply list_elem_of_further, list_elem_of_here. }
  apply elem_of_cons in Hin as [->|Hin]; [done|].
  by apply elem_of_nil in Hin.
Qed.

Lemma desktop_lists_well_identified : lists_well_identified desktop_wid desktop.
Proof.
  intros Application WindowList Window Hlist Hin. cbn in Hlist.
  case_decide; simplify_eq.
  repeat (apply elem_of_cons in Hin as [->|Hin]; [done|]).
  by apply elem_of_nil in Hin.
Qed.

Lemma desktop_started_disciplined : disciplined desktop_wid desktop_started.
Proof.
  apply (disciplined_run desktop_wid desktop DoInitState initial).
  - constructor.
  - apply desktop_lists_well_identified.
  - done.
Qed.

(** ** Threads: the mutex keeps writes and lookups apart *)

Module ThreadsFacts.

Import Threads.

Lemma invariant_start n : invariant (start n).
Proof.
  unfold invariant, start. cbn. split_and!.
  - intros t p [-> _]%lookup_replicate. done.
  - intros [? [=]].
  - done.
  - done.
  - intros i w. by rewrite lookup_empty.
  - intros t p i r [-> _]%lookup_replicate. done.
Qed.

Lemma fully_registered_mono WindowId Result sh sh' :
  Inserted sh ⊆ Inserted sh' →
  fully_registered WindowId Result sh → fully_registered WindowId Result sh'.
Proof.
  intros Hsub. destruct Result as [[w|]|]; cbn; [|done..].
  intros [? ?]. split; [done|]. by apply Hsub.
Qed.

(** While a thread that is not writing holds the mutex, no write is under way. *)
Lemma holder_quiet c t p :
  invariant c → Pool c !! t = Some p →
  in_critical_section p = true → is_writing p = false →
  Writing (Memory c) = None.
Proof.
  intros (I1 & I2 & _) Hp Hcrit Hnw.
  destruct (Writing (Memory c)) eqn:Hw; [|done].
  destruct I2 as (t0 & p0 & Hl0 & Hp0 & Hw0); [by eauto|].
  rewrite (I1 _ _ Hp Hcrit) in Hl0. simplify_eq. congruence.
Qed.

(** While a thread that is not reading holds the mutex, no lookup is under way. *)
Lemma holder_unread c t p :
  invariant c → Pool c !! t = Some p →
  in_critical_section p = true → is_reading p = false →
  Readers (Memory c) = 0.
Proof.
  intros (I1 & _ & I3 & _) Hp Hcrit Hnr.
  destruct (decide (Readers (Memory c) = 0)) as [|Hr]; [done|].
  destruct (I3 Hr) as (_ & t0 & p0 & Hl0 & Hp0 & Hr0).
  rewrite (I1 _ _ Hp Hcrit) in Hl0. simplify_eq. congruence.
Qed.

#[local] Ltac pool_lookup H :=
  apply list_lookup_insert_Some in H as [(<- & <- & _)|(? & H)].

Lemma invariant_local c t p p' :
  invariant c → Pool c !! t = Some p →
  in_critical_section p' = false → is_writing p = false → is_reading p = false →
  lookup_result p' = None →
  invariant {| Memory := Memory c; Pool := <[t := p']> (Pool c) |}.
Proof.
  intros (I1 & I2 & I3 & I4 & I5 & I6) Hp Hcrit Hnw Hnr Hres.
  split_and!; cbn; [| | |done..|].
  - intros t0 p0 Hl Hc. pool_lookup Hl; [congruence|eauto].
  - intros Hw. destruct (I2 Hw) as (t0 & p0 & Hl0 & Hp0 & Hw0).
    exists t0, p0. split_and!; [done| |done].
    rewrite list_lookup_insert_ne; [done|]. intros <-. congruence.
  - intros Hr. destruct (I3 Hr) as (Hone & t0 & p0 & Hl0 & Hp0 & Hr0).
    split; [done|]. exists t0, p0. split_and!; [done| |done].
    rewrite list_lookup_insert_ne; [done|]. intros <-. congruence.
  - intros t0 p0 i r Hl Hr. pool_lookup Hl; [congruence|eauto].
Qed.

Lemma invariant_lock c t p p' sh' :
  invariant c → Pool c !! t = Some p → lock t (Memory c) = Some sh' →
  lookup_result p' = None →
  invariant {| Memory := sh'; Pool := <[t := p']> (Pool c) |}.
Proof.
  intros (I1 & I2 & I3 & I4 & I5 & I6) Hp Hlock Hres. unfold lock in Hlock.
  destruct (WindowsLock (Memory c)) eqn:Hfree; [done|]. simplify_eq.
  split_and!; cbn; [| | |done..|].
  - intros t0 p0 Hl Hc. pool_lookup Hl; [done|].
    specialize (I1 _ _ Hl Hc). congruence.
  - intros Hw. destruct (I2 Hw) as (t0 & _ & Hl0 & _). congruence.
  - intros Hr. destruct (I3 Hr) as (_ & t0 & _ & Hl0 & _). congruence.
  - intros t0 p0 i r Hl Hr. pool_lookup Hl; [congruence|eauto].
Qed.

Lemma invariant_unlock c t p p' :
  invariant c → Pool c !! t = Some p →
  in_critical_section p = true → is_writing p = false → is_reading p = false →
  in_critical_section p' = false → lookup_result p' = lookup_result p →
  invariant {| Memory := unlock (Memory c); Pool := <[t := p']> (Pool c) |}.
Proof.
  intros Hinv Hp Hcrit Hnw Hnr Hcrit' Hres.
  pose proof (holder_quiet _ _ _ Hinv Hp Hcrit Hnw) as Hquiet.
  pose proof (holder_unread _ _ _ Hinv Hp Hcrit Hnr) as Hunread.
  destruct Hinv as (I1 & I2 & I3 & I4 & I5 & I6).
  split_and!; cbn; [| | |done..|].
  - intros t0 p0 Hl Hc. pool_lookup Hl; [congruence|].
    pose proof (I1 _ _ Hl Hc). pose proof (I1 _ _ Hp Hcrit). congruence.
  - rewrite Hquiet. by intros [? [=]].
  - by rewrite Hunread.
  - intros t0 p0 i r Hl Hr. pool_lookup Hl; [|by eapply (I6 t0 p0)].
    rewrite Hres in Hr. by eapply (I6 t p).
Qed.

Lemma invariant_find c t WindowId It sh' :
  invariant c → Pool c !! t = Some (GetWindowByID_34 WindowId) →
  find WindowId (Memory c) = (It, sh') →
  invariant {| Memory := sh'; Pool := <[t := GetWindowByID_35 WindowId It]> (Pool c) |}.
Proof.
  intros Hinv Hp Hfind.
  pose proof (holder_quiet _ _ _ Hinv Hp eq_refl eq_refl) as Hquiet.
  pose proof (holder_unread _ _ _ Hinv Hp eq_refl eq_refl) as Hunread.
  destruct Hinv as (I1 & I2 & I3 & I4 & I5 & I6).
  assert (t < length (Pool c)) as Hlen by (by eapply lookup_lt_Some).
  unfold find in Hfind. rewrite Hquiet, Hunread in Hfind. simplify_eq.
  split_and!; cbn; [| | |done..|].
  - intros t0 p0 Hl Hc. pool_lookup Hl; eauto.
  - by intros [? [=]].
  - intros _. split; [done|]. eexists t, _. split; [by eapply I1|].
    split; [by apply list_lookup_insert_eq|done].
  - intros t0 p0 i r Hl Hr. pool_lookup Hl; [|by eapply (I6 t0 p0)].
    cbn in Hr. simplify_eq. cbn.
    destruct (Registry (Memory c) !! i) eqn:Hreg; [|done]. by apply I5.
Qed.

Lemma invariant_dereference c t WindowId It :
  invariant c → Pool c !! t = Some (GetWindowByID_35 WindowId It) →
  invariant {| Memory := dereference (Memory c);
               Pool := <[t := GetWindowByID_36 WindowId It]> (Pool c) |}.
Proof.
  intros Hinv Hp.
  pose proof (holder_quiet _ _ _ Hinv Hp eq_refl eq_refl) as Hquiet.
  destruct Hinv as (I1 & I2 & I3 & I4 & I5 & I6).
  assert (pred (Readers (Memory c)) = 0) as Hunread.
  { destruct (decide (Readers (Memory c) = 0)) as [->|Hr]; [done|].
    by destruct (I3 Hr) as [-> _]. }
  split_and!; cbn; [| | |done..|].
  - intros t0 p0 Hl Hc. pool_lookup Hl; eauto.
  - rewrite Hquiet. by intros [? [=]].
  - by rewrite Hunread.
  - intros t0 p0 i r Hl Hr. pool_lookup Hl; [|by eapply (I6 t0 p0)].
    by eapply (I6 t (GetWindowByID_35 WindowId It)).
Qed.

Lemma invariant_begin_write c t p p' w :
  invariant c → Pool c !! t = Some p →
  in_critical_section p = true → is_writing p = false → is_reading p = false →
  in_critical_section p' = true → is_writing p' = true → lookup_result p' = None →
  invariant {| Memory := begin_write w (Memory c); Pool := <[t := p']> (Pool c) |}.
Proof.
  intros Hinv Hp Hcrit Hnw Hnr Hcrit' Hw' Hres.
  pose proof (holder_quiet _ _ _ Hinv Hp Hcrit Hnw) as Hquiet.
  pose proof (holder_unread _ _ _ Hinv Hp Hcrit Hnr) as Hunread.
  destruct Hinv as (I1 & I2 & I3 & I4 & I5 & I6).
  assert (t < length (Pool c)) as Hlen by (by eapply lookup_lt_Some).
  split_and!; cbn; [| | | |done|].
  - intros t0 p0 Hl Hc. pool_lookup Hl; eauto.
  - intros _. exists t, p'. split_and!; [by eapply I1| |done].
    by apply list_lookup_insert_eq.
  - by rewrite Hunread.
  - by rewrite Hquiet, Hunread.
  - intros t0 p0 i r Hl Hr. pool_lookup Hl; [congruence|by eapply (I6 t0 p0)].
Qed.

Lemma invariant_end_write c t p p' :
  invariant c → Pool c !! t = Some p →
  in_critical_section p = true → is_reading p = false → lookup_result p' = None →
  invariant {| Memory := end_write (Memory c); Pool := <[t := p']> (Pool c) |}.
Proof.
  intros Hinv Hp Hcrit Hnr Hres.
  pose proof (holder_unread _ _ _ Hinv Hp Hcrit Hnr) as Hunread.
  destruct Hinv as (I1 & I2 & I3 & I4 & I5 & I6).
  assert (WindowsLock (end_write (Memory c)) = WindowsLock (Memory c)) as Hlock.
  { unfold end_write. by destruct (Writing (Memory c)) as [[]|]. }
  assert (Writing (end_write (Memory c)) = None) as Hquiet.
  { unfold end_write. by destruct (Writing (Memory c)) as [[]|] eqn:?. }
  assert (Readers (end_write (Memory c)) = 0) as Hunread'.
  { unfold end_write. by destruct (Writing (Memory c)) as [[]|]. }
  assert (Raced (end_write (Memory c)) = Raced (Memory c)) as Hraced.
  { unfold end_write. by destruct (Writing (Memory c)) as [[]|]. }
  assert (Inserted (Memory c) ⊆ Inserted (end_write (Memory c))) as Hsub.
  { unfold end_write. destruct (Writing (Memory c)) as [[]|]; cbn; [|done..].
    intros x Hx. by apply list_elem_of_further. }
  split_and!; cbn.
  - rewrite Hlock. intros t0 p0 Hl Hc. pool_lookup Hl; eauto.
  - rewrite Hquiet. by intros [? [=]].
  - by rewrite Hunread'.
  - congruence.
  - unfold end_write. destruct (Writing (Memory c)) as [[w|i]|]; cbn; [| |done].
    + intros j x [[<- <-]|[_ Hx]]%lookup_insert_Some.
      * split; [done|]. apply list_elem_of_here.
      * destruct (I5 _ _ Hx). split; [done|]. by apply list_elem_of_further.
    + intros j x [_ Hx]%lookup_delete_Some. by apply I5.
  - intros t0 p0 i r Hl Hr. pool_lookup Hl; [congruence|].
    eapply fully_registered_mono; [done|]. by eapply (I6 t0 p0).
Qed.

Lemma invariant_step c c' : invariant c → step c c' → invariant c'.
Proof.
  intros Hinv Hstep.
  destruct Hstep as [os t next c c' Hstep]. unfold step_config in Hstep.
  destruct (Pool c !! t) as [p|] eqn:Hp; cbn in Hstep; [|done].
  destruct (step_thread os t next p (Memory c)) as [[p' sh']|] eqn:Hthread;
    cbn in Hstep; [|done].
  simplify_eq. rename Hthread into Hstep.
  destruct p; cbn in Hstep.
  all: try (destruct (lock t (Memory c)) as [sh1|] eqn:Hlock; cbn in Hstep; [|done]).
  all: try (destruct (find WindowId (Memory c)) as [r sh1] eqn:Hfind).
  all: simplify_eq.
  all: try (by eapply invariant_lock).
  all: try (by eapply invariant_find).
  all: try (by eapply invariant_dereference).
  all: try (by eapply invariant_unlock).
  all: try (by eapply invariant_begin_write).
  all: try (by eapply invariant_end_write).
  - destruct next; by eapply invariant_local.
  - by eapply invariant_local.
  - destruct (Id Window =? 0)%N; by eapply invariant_local.
  - destruct (subscribes os Window); by eapply invariant_local.
  - by eapply invariant_local.
  - by eapply invariant_local.
Qed.

Lemma reachable_invariant n c : reachable n c → invariant c.
Proof.
  induction 1 as [|c c' _ IH Hstep]; [apply invariant_start|].
  by eapply invariant_step.
Qed.

Lemma run_schedule_reachable n os schedule c c' :
  reachable n c → run_schedule os schedule c = Some c' → reachable n c'.
Proof.
  revert c. induction schedule as [|[t next] schedule IH]; intros c Hc Hrun; cbn in Hrun.
  - by simplify_eq.
  - destruct (step_config os t next c) as [c1|] eqn:Hstep; cbn in Hrun; [|done].
    eapply IH; [|done]. eapply reachable_step; [done|]. by econstructor.
Qed.

(** *** One thread on its own *)

Lemma run_schedule_alone os t next k c p :
  Pool c !! t = Some p →
  run_schedule os (replicate k (t, next)) c =
  '(p', sh') ← run_thread os t next k p (Memory c);
  Some {| Memory := sh'; Pool := <[t := p']> (Pool c) |}.
Proof.
  revert c p. induction k as [|k IH]; intros c p Hp; cbn.
  - rewrite list_insert_id by done. by destruct c.
  - unfold step_config. rewrite Hp. cbn.
    destruct (step_thread os t next p (Memory c)) as [[p1 sh1]|]; cbn; [|done].
    erewrite IH; cbn; [|apply list_lookup_insert_eq; by eapply lookup_lt_Some].
    destruct (run_thread os t next k p1 sh1) as [[p2 sh2]|]; cbn; [|done].
    by rewrite list_insert_insert_eq.
Qed.

(** A call that no other thread interleaves with does what the sequential
    function does. *)
Lemma GetWindowByID_alone os t WindowId sh s :
  WindowsLock sh = None → Writing sh = None → Readers sh = 0 →
  Registry sh = Windows s →
  run_thread os t (RequestGetWindowByID WindowId) 5 Idle sh =
  Some (GetWindowByID_38 WindowId (Entry (GetWindowByID WindowId s)), sh).
Proof.
  destruct sh as [l r w rd rc ins]. cbn. intros -> -> -> ->. done.
Qed.

Lemma AddWindowToCollection_alone os t Window sh s :
  WindowsLock sh = None → Writing sh = None → Readers sh = 0 →
  Registry sh = Windows s →
  ∃ k sh',
    run_thread os t (RequestAddWindowToCollection Window) k Idle sh =
      Some (AddWindowToCollection_63 (AddWindowToCollection os Window s).1, sh') ∧
    WindowsLock sh' = None ∧ Writing sh' = None ∧ Readers sh' = 0 ∧
    Raced sh' = Raced sh ∧
    Registry sh' = Windows (AddWindowToCollection os Window s).2.
Proof.
  destruct sh as [l r w rd rc ins]. intros Hl Hw Hrd Hr. cbn in Hl, Hw, Hrd, Hr. subst.
  rewrite AddWindowToCollection_result, AddWindowToCollection_Windows.
  unfold admissible.
  destruct (Id Window =? 0)%N eqn:Hz; [|destruct (subscribes os Window) eqn:Hs].
  - exists 2. eexists. cbn -[subscribes]. rewrite Hz. by split_and!.
  - exists 7. eexists. cbn -[subscribes]. rewrite Hz.
    unfold step_thread. rewrite Hs. cbn. by split_and!.
  - exists 3. eexists. cbn -[subscribes]. rewrite Hz.
    unfold step_thread. rewrite Hs. cbn. by split_and!.
Qed.

Lemma RemoveWindowFromCollection_alone os t Window sh s :
  WindowsLock sh = None → Writing sh = None → Readers sh = 0 →
  Registry sh = Windows s →
  ∃ sh',
    run_thread os t (RequestRemoveWindowFromCollection Window) 6 Idle sh =
      Some (Idle, sh') ∧
    WindowsLock sh' = None ∧ Writing sh' = None ∧ Readers sh' = 0 ∧
    Raced sh' = Raced sh ∧
    Registry sh' = Windows (RemoveWindowFromCollection Window s).
Proof.
  destruct sh as [l r w rd rc ins]. cbn. intros -> -> -> ->.
  eexists. by split_and!.
Qed.

(** The model does tell a race: a lookup that meets a write under way observes
    [Partial], a write that begins during a lookup is recorded, and a thread
    cannot take the mutex while another holds it. *)
Example find_during_a_write :
  find 7%N {| WindowsLock := None; Registry := ∅; Writing := Some (Inserting Documents);
             Readers := 0; Raced := false; Inserted := [] |}
  = (Partial, {| WindowsLock := None; Registry := ∅;
                 Writing := Some (Inserting Documents); Readers := 1; Raced := true;
                 Inserted := [] |}).
Proof. reflexivity. Qed.

Example write_during_a_lookup :
  Raced (begin_write (Erasing 7%N)
           {| WindowsLock := None; Registry := {[7%N := Documents]}; Writing := None;
              Readers := 1; Raced := false; Inserted := [Documents] |}) = true.
Proof. reflexivity. Qed.

Example waiting_thread_is_blocked :
  Pool writing_and_waiting !! 0 = Some (AddWindowToCollection_59_writing Documents) ∧
  Pool writing_and_waiting !! 1 = Some (GetWindowByID_33 7%N) ∧
  step_config desktop 1 (RequestGetWindowByID 7%N) writing_and_waiting = None.
Proof. by split_and!. Qed.

Lemma registered_and_looked_up_reachable : reachable 2 registered_and_looked_up.
Proof.
  by apply (run_schedule_reachable 2 desktop register_and_lookup (start 2));
    [constructor|].
Qed.

(** C9. Any number of threads call [GetWindowByID], [AddWindowToCollection]
    and [RemoveWindowFromCollection] in any order, their statements
    interleaved in any way.  Then no lookup ever meets a write that is under
    way and no write begins during a lookup or another write; a thread whose
    next statement reads or writes [Windows] holds [WindowsLock], so two such
    threads are the same thread; while a lookup reads the map no write is
    under way, and while a write is under way no lookup is; and what a lookup
    returns is nothing or a record whose insertion under the looked-up
    identifier has finished. *)
Theorem lookups_never_meet_a_write n c :
  reachable n c →
  Raced (Memory c) = false ∧
  (∀ t p, Pool c !! t = Some p → accesses_Windows p = true →
          WindowsLock (Memory c) = Some t) ∧
  (∀ t1 t2 p1 p2, Pool c !! t1 = Some p1 → Pool c !! t2 = Some p2 →
                  accesses_Windows p1 = true → accesses_Windows p2 = true → t1 = t2) ∧
  (∀ t p, Pool c !! t = Some p → reads_Windows p = true →
          Writing (Memory c) = None) ∧
  (∀ t p, Pool c !! t = Some p → is_writing p = true →
          Readers (Memory c) = 0) ∧
  (∀ t WindowId Result, Pool c !! t = Some (GetWindowByID_38 WindowId Result) →
                        fully_registered WindowId Result (Memory c)).
Proof.
  intros Hreach. pose proof (reachable_invariant n c Hreach) as Hinv.
  assert (∀ t p, Pool c !! t = Some p → accesses_Windows p = true →
                 WindowsLock (Memory c) = Some t) as Hholds.
  { destruct Hinv as (I1 & _). intros t p Hp Hacc. apply (I1 t p Hp).
    by destruct p. }
  split_and!.
  - by destruct Hinv as (_ & _ & _ & ? & _).
  - done.
  - intros t1 t2 p1 p2 Hp1 Hp2 Ha1 Ha2.
    pose proof (Hholds _ _ Hp1 Ha1). pose proof (Hholds _ _ Hp2 Ha2). congruence.
  - intros t p Hp Hr. eapply holder_quiet; [done..| |]; by destruct p.
  - intros t p Hp Hw. eapply holder_unread; [done..| |]; by destruct p.
  - destruct Hinv as (_ & _ & _ & _ & _ & I6). intros t WindowId Result Hp.
    by eapply I6.
Qed.

(** Thread 1 looked window 7 up while thread 0 registered it: it waited for the
    mutex and found the record thread 0 had finished inserting. *)
Lemma lookups_never_meet_a_write_witness :
  Pool registered_and_looked_up !! 1 =
    Some (GetWindowByID_38 7%N (Entry (Some Documents))) ∧
  Raced (Memory registered_and_looked_up) = false ∧
  fully_registered 7%N (Entry (Some Documents)) (Memory registered_and_looked_up).
Proof.
  split; [reflexivity|].
  destruct (lookups_never_meet_a_write 2 registered_and_looked_up
              registered_and_looked_up_reachable) as (Hraced & _ & _ & _ & _ & Hresult).
  split; [exact Hraced|]. by apply (Hresult 1).
Defined.

End ThreadsFacts.

(** * Properties of the registries *)

(** ** Examples on the concrete platform *)

Example desktop_started_7 : GetWindowByID 7%N desktop_started = Some Documents.
Proof. reflexivity. Qed.

Example desktop_started_8 : GetWindowByID 8%N desktop_started = Some Downloads.
Proof. reflexivity. Qed.

Example desktop_started_9 : GetWindowByID 9%N desktop_started = None.
Proof. reflexivity. Qed.

Example desktop_started_0 : GetWindowByID 0%N desktop_started = None.
Proof. reflexivity. Qed.

Example desktop_started_Finder : GetApplicationFromPID 100%Z desktop_started = Some Finder.
Proof. reflexivity. Qed.

(** Discovery on the concrete platform, call by call (newest first): the
    list is fetched, 7 and 8 are subscribed and registered, the subscription
    of 9 is refused, and 9 and the element without identifier are reported and
    destroyed; for the latter no subscription is attempted. *)
Example discovery_trace :
  Trace (AddApplicationWindowsToCollection desktop Finder initial) =
  [ CallDestroyWindow Ghost;
    CallPrintf "%s:%s is not destructible, ignore!\n"
      [ArgString "Finder"; ArgString "Ghost"];
    CallDestroyWindow Tooltip;
    CallPrintf "%s:%s is not destructible, ignore!\n"
      [ArgString "Finder"; ArgString "Tooltip"];
    CallAddObserverNotification 1%positive 9%positive kAXUIElementDestroyedNotification
      Tooltip kAXErrorNotificationUnsupported;
    CallAddObserverNotification 1%positive 8%positive kAXUIElementDestroyedNotification
      Downloads kAXErrorSuccess;
    CallAddObserverNotification 1%positive 7%positive kAXUIElementDestroyedNotification
      Documents kAXErrorSuccess;
    CallWindowListForApplication Finder ].
Proof. reflexivity. Qed.

(** A second discovery destroys every listed record and registers nothing. *)
Example second_discovery :
  Windows (AddApplicationWindowsToCollection desktop Finder desktop_started) =
    Windows desktop_started ∧
  destroyed Documents (AddApplicationWindowsToCollection desktop Finder desktop_started) ∧
  destroyed Downloads (AddApplicationWindowsToCollection desktop Finder desktop_started).
Proof.
  split; [reflexivity|]. unfold destroyed.
  split; apply list_elem_of_In; vm_compute; tauto.
Qed.

(** [UpdateWindowCollection] visits the applications by ascending process id. *)
Example applications_in_order_ascending :
  applications_in_order
    (<[5%Z := {| PID := 5%Z; AppName := "b"; Observer := 2%positive |}]>
       (<[(-3)%Z := {| PID := (-3)%Z; AppName := "a"; Observer := 3%positive |}]>
          (<[100%Z := Finder]> ∅))) =
  [ {| PID := (-3)%Z; AppName := "a"; Observer := 3%positive |};
    {| PID := 5%Z; AppName := "b"; Observer := 2%positive |};
    Finder ].
Proof. reflexivity. Qed.

(** The scenario of the specification: windows 7 and 8 of process 100 are
    registered; once window 7 is unregistered only 8 is left. *)
Example desktop_after_destroy_7 :
  GetWindowByID 7%N (RemoveWindowFromCollection Documents desktop_started) = None ∧
  GetWindowByID 8%N (RemoveWindowFromCollection Documents desktop_started) = Some Downloads.
Proof. split; reflexivity. Qed.

Example desktop_started_reachable : reachable desktop_started.
Proof. by apply (run_all_reachable desktop [DoInitState] initial); [constructor|]. Qed.

(** C1. Discovery ([AddApplicationWindowsToCollection]) takes the listed
    windows in turn, each in the state the windows before it have left.  A
    window whose identifier is in the Window Registry is destroyed and the
    registry stays as it is.  Otherwise registration is attempted; a record it
    rejects is destroyed and the registry stays as it is, a record it accepts
    is inserted under its identifier.  After discovery the registry holds
    exactly the identifiers it held before and those of the listed windows that
    are admissible (nonzero identifier, destroy-notification accepted); the
    entries it held are unchanged, every new entry is an admissible listed
    record, every inadmissible listed record is destroyed, and every listed
    record is either destroyed or registered. *)
Theorem discovery_registers_new_admissible_windows os Application s :
  (∀ Before Window After,
     listed os Application = Before ++ Window :: After →
     AddApplicationWindowsToCollection os Application s =
     AddApplicationWindows os After
       (AddApplicationWindow os Window
          (AddApplicationWindows os Before
             (emit (CallWindowListForApplication Application) s)))) ∧
  (∀ Window s0,
     (is_Some (GetWindowByID (Id Window) s0) →
      Windows (AddApplicationWindow os Window s0) = Windows s0 ∧
      destroyed Window (AddApplicationWindow os Window s0)) ∧
     (GetWindowByID (Id Window) s0 = None →
      (AddWindowToCollection os Window s0).1 = false →
      Windows (AddApplicationWindow os Window s0) = Windows s0 ∧
      destroyed Window (AddApplicationWindow os Window s0)) ∧
     (GetWindowByID (Id Window) s0 = None →
      (AddWindowToCollection os Window s0).1 = true →
      AddApplicationWindow os Window s0 = (AddWindowToCollection os Window s0).2 ∧
      Windows (AddApplicationWindow os Window s0) =
        <[Id Window := Window]> (Windows s0))) ∧
  let s' := AddApplicationWindowsToCollection os Application s in
  dom (Windows s') = dom (Windows s) ∪ admissible_ids os (listed os Application) ∧
  (∀ WindowId Registered,
     Windows s !! WindowId = Some Registered →
     Windows s' !! WindowId = Some Registered) ∧
  (∀ WindowId Registered,
     Windows s' !! WindowId = Some Registered →
     Windows s !! WindowId = Some Registered ∨
     (Registered ∈ listed os Application ∧ Id Registered = WindowId ∧
      admissible os Registered = true)) ∧
  (∀ Window, Window ∈ listed os Application → admissible os Window = false →
             destroyed Window s') ∧
  (∀ Window, Window ∈ listed os Application →
             destroyed Window s' ∨ Windows s' !! Id Window = Some Window).
Proof.
  split; [|split].
  - unfold listed, AddApplicationWindowsToCollection. intros Before Window After Hl.
    destruct (AXLibWindowListForApplication os Application) as [WindowList|];
      cbn in Hl; [|by destruct Before].
    by rewrite Hl, AddApplicationWindows_app.
  - intros Window s0. split_and!.
    + intros Hdup. rewrite AddApplicationWindow_duplicate by done.
      split; [done|apply list_elem_of_here].
    + apply AddApplicationWindow_rejected.
    + intros Hnone Htrue. split; [by apply AddApplicationWindow_accepted|].
      rewrite AddApplicationWindow_Windows. unfold GetWindowByID in Hnone.
      rewrite Hnone. rewrite AddWindowToCollection_result in Htrue. by rewrite Htrue.
  - cbn zeta. unfold AddApplicationWindowsToCollection, listed.
    destruct (AXLibWindowListForApplication os Application) as [WindowList|]; cbn.
    + split_and!.
      * by rewrite AddApplicationWindows_dom.
      * intros i w Hw. by apply AddApplicationWindows_preserves.
      * intros i w Hw. by apply AddApplicationWindows_origin in Hw.
      * intros w Hin Hadm. by apply AddApplicationWindows_inadmissible_destroyed.
      * intros w Hin. by apply AddApplicationWindows_fate.
    + split_and!;
        [unfold admissible_ids; cbn; by rewrite (right_id_L ∅ (∪))|done|by left|..];
        intros w Hin; by apply elem_of_nil in Hin.
Qed.

(** C2. [AddWindowToCollection] returns false exactly when the identifier of
    the window is 0 or the platform does not accept the destroy-notification;
    whenever it returns false the Window Registry is unchanged (with identifier
    0 nothing at all is done); when it returns true the record is inserted
    under its identifier.  In every reachable state 0 is not a key of the Window
    Registry. *)
Theorem register_rejects_zero_and_unsubscribable :
  (∀ os Window s,
     ((AddWindowToCollection os Window s).1 = false ↔
      Id Window = 0%N ∨
      AXLibAddObserverNotification os (Observer (Owner Window)) (Ref Window)
        kAXUIElementDestroyedNotification Window ≠ kAXErrorSuccess) ∧
     (Id Window = 0%N → (AddWindowToCollection os Window s).2 = s) ∧
     ((AddWindowToCollection os Window s).1 = false →
      Windows (AddWindowToCollection os Window s).2 = Windows s) ∧
     ((AddWindowToCollection os Window s).1 = true →
      Windows (AddWindowToCollection os Window s).2 =
        <[Id Window := Window]> (Windows s))) ∧
  (∀ s, reachable s → GetWindowByID 0%N s = None).
Proof.
  split; [|apply reachable_no_zero].
  intros os Window s. split_and!.
  - unfold AddWindowToCollection.
    destruct (Id Window =? 0)%N eqn:Hz; cbn.
    + apply N.eqb_eq in Hz. split; [by left|done].
    + apply N.eqb_neq in Hz. case_bool_decide as Hs; cbn.
      * split; [done|]. by intros [?|?].
      * split; [by right|done].
  - intros Hz. unfold AddWindowToCollection. by rewrite Hz.
  - rewrite AddWindowToCollection_result, AddWindowToCollection_Windows. by intros ->.
  - rewrite AddWindowToCollection_result, AddWindowToCollection_Windows. by intros ->.
Qed.

(** On the concrete platform: after start-up, discovery and the loss of window
    7, identifier 0 is not registered. *)
Lemma register_rejects_zero_and_unsubscribable_witness :
  GetWindowByID 0%N (RemoveWindowFromCollection Documents desktop_started) = None.
Proof.
  apply (proj2 register_rejects_zero_and_unsubscribable).
  apply (run_all_reachable desktop
           [DoInitState; DoRemoveWindowFromCollection Documents] initial);
    [constructor|reflexivity].
Defined.

(** C4. For a focus-changed, moved, resized, minimized, deminimized or
    title-changed notification the router resolves the identifier of the
    element and looks it up.  Both registries are left unchanged.  When the
    identifier is not registered no event is constructed; when it is, exactly
    the corresponding event is constructed, with the registered record as its
    payload. *)
Theorem router_drops_notifications_of_unknown_windows
    os Element Notification Event Reference s :
  (Notification, Event) ∈ resolved_notifications →
  ∃ s', ApplicationCallback os Element Notification Reference s = Some s' ∧
        Windows s' = Windows s ∧ Applications s' = Applications s ∧
        match GetWindowByID (AXLibGetWindowID os Element) s with
        | None =>
            events (Trace s') = events (Trace s) ∧
            Trace s' = CallGetWindowID Element :: Trace s
        | Some Window =>
            events (Trace s') = (Event, Window) :: events (Trace s) ∧
            Trace s' =
              CallConstructEvent Event Window :: CallGetWindowID Element :: Trace s
        end.
Proof.
  intros Hin. exists (LookupAndConstructEvent os Event Element s).
  split_and!.
  - unfold resolved_notifications in Hin.
    repeat (apply elem_of_cons in Hin as [Hin|Hin]; [by simplify_eq|]).
    by apply elem_of_nil in Hin.
  - apply LookupAndConstructEvent_Windows.
  - apply LookupAndConstructEvent_Applications.
  - pose proof (LookupAndConstructEvent_events os Event Element s) as He.
    unfold LookupAndConstructEvent, ConstructEvent, GetWindowByID in *. cbn in *.
    by destruct (Windows s !! AXLibGetWindowID os Element).
Qed.

(** On the concrete platform: a move of the unknown window 9 constructs no
    event; a move of window 7 constructs [ChunkWM_WindowMoved] for the
    registered record. *)
Lemma router_drops_notifications_of_unknown_windows_witness :
  (∃ s', ApplicationCallback desktop 9%positive kAXWindowMovedNotification
           (ReferenceApplication Finder) desktop_started = Some s' ∧
         Windows s' = Windows desktop_started ∧
         Applications s' = Applications desktop_started ∧
         events (Trace s') = events (Trace desktop_started) ∧
         Trace s' = CallGetWindowID 9%positive :: Trace desktop_started) ∧
  (∃ s', ApplicationCallback desktop 7%positive kAXWindowMovedNotification
           (ReferenceApplication Finder) desktop_started = Some s' ∧
         Windows s' = Windows desktop_started ∧
         Applications s' = Applications desktop_started ∧
         events (Trace s') = (ChunkWM_WindowMoved, Documents) ::
                             events (Trace desktop_started) ∧
         Trace s' = CallConstructEvent ChunkWM_WindowMoved Documents ::
                    CallGetWindowID 7%positive :: Trace desktop_started).
Proof.
  split.
  - apply (router_drops_notifications_of_unknown_windows desktop 9%positive
             kAXWindowMovedNotification ChunkWM_WindowMoved
             (ReferenceApplication Finder) desktop_started).
    unfold resolved_notifications. apply list_elem_of_further, list_elem_of_here.
  - apply (router_drops_notifications_of_unknown_windows desktop 7%positive
             kAXWindowMovedNotification ChunkWM_WindowMoved
             (ReferenceApplication Finder) desktop_started).
    unfold resolved_notifications. apply list_elem_of_further, list_elem_of_here.
Defined.

(** C5, as the code has it.  On a window-created notification the router
    builds a record from the owning application and the handle and constructs
    [ChunkWM_WindowCreated] with that record as payload.  It does nothing else:
    no lookup, no registration, no subscription; both registries are left
    unchanged. *)
Theorem router_only_announces_created_window os Element Application s :
  ∃ s', ApplicationCallback os Element kAXWindowCreatedNotification
          (ReferenceApplication Application) s = Some s' ∧
        Trace s' =
          CallConstructEvent ChunkWM_WindowCreated
            (AXLibConstructWindow os Application Element) ::
          CallConstructWindow Application Element :: Trace s ∧
        events (Trace s') =
          (ChunkWM_WindowCreated, AXLibConstructWindow os Application Element) ::
          events (Trace s) ∧
        Windows s' = Windows s ∧ Applications s' = Applications s.
Proof. eexists. by split_and!. Qed.

(** C5 as stated fails.  Window 7 of the concrete platform is new and
    admissible: discovery-style admission of the record the router builds
    would register it.  The router leaves the registry empty and asks for no
    subscription, so the registry it leaves is not the one admission gives. *)
Lemma router_does_not_register_created_window :
  ∃ s', ApplicationCallback desktop 7%positive kAXWindowCreatedNotification
          (ReferenceApplication Finder) initial = Some s' ∧
        admissible desktop (AXLibConstructWindow desktop Finder 7%positive) = true ∧
        GetWindowByID 7%N
          (AddApplicationWindow desktop
             (AXLibConstructWindow desktop Finder 7%positive) initial)
        = Some (AXLibConstructWindow desktop Finder 7%positive) ∧
        GetWindowByID 7%N s' = None ∧
        registrations (Trace s') = 0 ∧
        Windows s' ≠
        Windows (AddApplicationWindow desktop
                   (AXLibConstructWindow desktop Finder 7%positive) initial).
Proof.
  eexists. split_and!; [done..|].
  intros Heq. by apply (f_equal (λ m, m !! 7%N)) in Heq.
Qed.

(** C6, as the code has it.  Discovery run twice in succession, where the
    second enumeration lists no admissible window (nonzero identifier, accepted
    destroy-notification) whose identifier the first did not list as
    admissible; in particular the same list with the same answers to the
    subscriptions.  Then the second run leaves the Window Registry as the first
    left it, and no subscription is accepted during it, so it registers
    nothing.  The same holds for two successive runs of
    [UpdateWindowCollection]. *)
Theorem discovery_is_idempotent os1 os2 :
  lists_nothing_new os1 os2 →
  (∀ Application s,
     let s1 := AddApplicationWindowsToCollection os1 Application s in
     let s2 := AddApplicationWindowsToCollection os2 Application s1 in
     Windows s2 = Windows s1 ∧
     registrations (Trace s2) = registrations (Trace s1)) ∧
  (∀ s,
     let s1 := UpdateWindowCollection os1 s in
     let s2 := UpdateWindowCollection os2 s1 in
     Windows s2 = Windows s1 ∧
     registrations (Trace s2) = registrations (Trace s1)).
Proof.
  intros Hsame. split.
  - intros Application s. cbn zeta.
    apply AddApplicationWindowsToCollection_saturated.
    eapply lists_nothing_new_saturated; [done|].
    apply AddApplicationWindowsToCollection_saturates.
  - intros s. cbn zeta. unfold UpdateWindowCollection.
    rewrite AddWindowsOfApplications_Applications.
    apply AddWindowsOfApplications_saturated.
    intros Application Hin. eapply lists_nothing_new_saturated; [done|].
    by apply AddWindowsOfApplications_saturates.
Qed.

(** On the concrete platform: discovery, then discovery again on the later
    enumeration, and likewise [UpdateWindowCollection] twice on the same
    platform after start-up. *)
Lemma discovery_is_idempotent_witness :
  (Windows (AddApplicationWindowsToCollection desktop_later Finder
              (AddApplicationWindowsToCollection desktop Finder initial)) =
     Windows (AddApplicationWindowsToCollection desktop Finder initial) ∧
   registrations (Trace (AddApplicationWindowsToCollection desktop_later Finder
                           (AddApplicationWindowsToCollection desktop Finder initial))) =
     registrations (Trace (AddApplicationWindowsToCollection desktop Finder initial))) ∧
  (Windows (UpdateWindowCollection desktop
              (UpdateWindowCollection desktop desktop_started)) =
     Windows (UpdateWindowCollection desktop desktop_started) ∧
   registrations (Trace (UpdateWindowCollection desktop
                           (UpdateWindowCollection desktop desktop_started))) =
     registrations (Trace (UpdateWindowCollection desktop desktop_started))).
Proof.
  split.
  - apply (proj1 (discovery_is_idempotent desktop desktop_later
                    desktop_later_lists_nothing_new) Finder initial).
  - apply (proj2 (discovery_is_idempotent desktop desktop
                    (lists_nothing_new_refl desktop)) desktop_started).
Defined.

(** C6 as stated fails.  An unchanged window list is not enough: discovery
    tries every listed window that is not registered again.  The second
    platform lists for every application what the first lists; window 9, whose
    destroy-notification was refused during the first run, is accepted during
    the second, which registers it.  The same happens to a second
    [UpdateWindowCollection]. *)
Lemma discovery_retries_a_refused_window :
  (∀ Application,
     AXLibWindowListForApplication desktop_retry Application =
     AXLibWindowListForApplication desktop Application) ∧
  GetWindowByID 9%N (AddApplicationWindowsToCollection desktop Finder initial) = None ∧
  GetWindowByID 9%N
    (AddApplicationWindowsToCollection desktop_retry Finder
       (AddApplicationWindowsToCollection desktop Finder initial)) = Some Tooltip ∧
  Windows (AddApplicationWindowsToCollection desktop_retry Finder
             (AddApplicationWindowsToCollection desktop Finder initial)) ≠
    Windows (AddApplicationWindowsToCollection desktop Finder initial) ∧
  registrations
    (Trace (AddApplicationWindowsToCollection desktop_retry Finder
              (AddApplicationWindowsToCollection desktop Finder initial))) =
    S (registrations (Trace (AddApplicationWindowsToCollection desktop Finder initial))) ∧
  Windows (UpdateWindowCollection desktop_retry
             (UpdateWindowCollection desktop desktop_started)) ≠
    Windows (UpdateWindowCollection desktop desktop_started).
Proof.
  split_and!; [done|done|done| |done|].
  - intros Heq. by apply (f_equal (λ m, m !! 9%N)) in Heq.
  - intros Heq. by apply (f_equal (λ m, m !! 9%N)) in Heq.
Qed.

(** C7. [RemoveAndDestroyApplication] takes the process id of the application
    out of the Application Registry, so that [GetApplicationFromPID] finds
    nothing for it afterwards, and destroys the application record.  The
    Window Registry is left unchanged, and so is every other process id. *)
Theorem remove_application_keeps_windows Application s :
  let s' := RemoveAndDestroyApplication Application s in
  GetApplicationFromPID (PID Application) s' = None ∧
  application_destroyed Application s' ∧
  Windows s' = Windows s ∧
  (∀ Pid, Pid ≠ PID Application →
          GetApplicationFromPID Pid s' = GetApplicationFromPID Pid s).
Proof.
  cbn zeta. unfold RemoveAndDestroyApplication, GetApplicationFromPID,
    application_destroyed.
  destruct (Applications s !! PID Application) eqn:Hfound; cbn.
  - split_and!; [apply lookup_delete_eq|apply list_elem_of_here|done|].
    intros Pid Hne. by rewrite lookup_delete_ne.
  - split_and!; [done|apply list_elem_of_here|done..].
Qed.

(** C8. [InitState] returns false if and only if [pthread_mutex_init] fails.
    When it fails nothing is done: no process is enumerated, no application is
    registered, no observer is attached.  When it succeeds [InitState] returns
    true whatever the observers and the registrations of the running
    applications answer. *)
Theorem init_state_fails_only_on_the_lock os s :
  ((InitState os s).1 = false ↔ pthread_mutex_init os ≠ 0%Z) ∧
  (pthread_mutex_init os ≠ 0%Z → (InitState os s).2 = s) ∧
  (pthread_mutex_init os = 0%Z → (InitState os s).1 = true).
Proof.
  unfold InitState. case_bool_decide as Hinit; cbn; naive_solver.
Qed.

(** On a platform where every observer and every subscription fails,
    [InitState] still returns true, and registers no window. *)
Example init_state_on_hostile_platform :
  (InitState hostile initial).1 = true ∧
  Windows (InitState hostile initial).2 = ∅ ∧
  GetApplicationFromPID 100%Z (InitState hostile initial).2 = Some Finder.
Proof. by split_and!. Qed.

(** C10. [AddWindowToCollection] makes no duplicate check.  For a record with
    a nonzero identifier whose destroy-notification the platform accepts it
    returns true and stores the record under its identifier whatever the
    registry held there: a record registered under that identifier is replaced,
    and the call does nothing else than the subscription and the insertion.
    The caller in this file, discovery, looks the identifier up first and
    never replaces a registered record. *)
Theorem register_overwrites_without_duplicate_check os Window s :
  Id Window ≠ 0%N →
  AXLibAddObserverNotification os (Observer (Owner Window)) (Ref Window)
    kAXUIElementDestroyedNotification Window = kAXErrorSuccess →
  (AddWindowToCollection os Window s).1 = true ∧
  Windows (AddWindowToCollection os Window s).2 = <[Id Window := Window]> (Windows s) ∧
  GetWindowByID (Id Window) (AddWindowToCollection os Window s).2 = Some Window ∧
  Trace (AddWindowToCollection os Window s).2 =
    CallAddObserverNotification (Observer (Owner Window)) (Ref Window)
      kAXUIElementDestroyedNotification Window kAXErrorSuccess :: Trace s ∧
  (∀ WindowId Registered,
     GetWindowByID WindowId s = Some Registered →
     GetWindowByID WindowId (AddApplicationWindow os Window s) = Some Registered).
Proof.
  intros Hid Hsub.
  assert (admissible os Window = true) as Hadm.
  { unfold admissible, subscribes. apply andb_true_iff. split.
    - by apply negb_true_iff, N.eqb_neq.
    - by apply bool_decide_eq_true. }
  split_and!.
  - by rewrite AddWindowToCollection_result.
  - by rewrite AddWindowToCollection_Windows, Hadm.
  - unfold GetWindowByID. rewrite AddWindowToCollection_Windows, Hadm.
    apply lookup_insert_eq.
  - unfold AddWindowToCollection. apply N.eqb_neq in Hid. rewrite Hid. cbn.
    by rewrite Hsub.
  - intros i w. apply AddApplicationWindow_preserves.
Qed.

(** On the concrete platform, with window 7 registered as [Documents]:
    registering a second record for identifier 7 succeeds and replaces it. *)
Lemma register_overwrites_without_duplicate_check_witness :
  GetWindowByID 7%N desktop_started = Some Documents ∧
  (AddWindowToCollection desktop Documents_again desktop_started).1 = true ∧
  Windows (AddWindowToCollection desktop Documents_again desktop_started).2 =
    <[7%N := Documents_again]> (Windows desktop_started) ∧
  GetWindowByID 7%N (AddWindowToCollection desktop Documents_again desktop_started).2 =
    Some Documents_again ∧
  Trace (AddWindowToCollection desktop Documents_again desktop_started).2 =
    CallAddObserverNotification 1%positive 7%positive
      kAXUIElementDestroyedNotification Documents_again kAXErrorSuccess ::
    Trace desktop_started ∧
  (∀ WindowId Registered,
     GetWindowByID WindowId desktop_started = Some Registered →
     GetWindowByID WindowId (AddApplicationWindow desktop Documents_again desktop_started)
     = Some Registered).
Proof.
  split; [reflexivity|].
  apply (register_overwrites_without_duplicate_check desktop Documents_again
           desktop_started); [done|reflexivity].
Defined.




(** * Further properties of state.cpp *)

(** ** The application registry *)

(** X1. [AddApplication] never replaces a registered application: afterwards
    the process id resolves to the record registered before, if there was one,
    and to the new record otherwise.  Other process ids, the Window Registry
    and the trace are untouched, and admitting any record of the same process
    id again changes nothing. *)
Theorem AddApplication_keeps_the_first Application s :
  GetApplicationFromPID (PID Application) (AddApplication Application s) =
    Some (default Application (GetApplicationFromPID (PID Application) s)) ∧
  (∀ Pid, Pid ≠ PID Application →
          GetApplicationFromPID Pid (AddApplication Application s) =
          GetApplicationFromPID Pid s) ∧
  Windows (AddApplication Application s) = Windows s ∧
  Trace (AddApplication Application s) = Trace s ∧
  (∀ Later, PID Later = PID Application →
            AddApplication Later (AddApplication Application s) =
            AddApplication Application s).
Proof.
  unfold AddApplication, GetApplicationFromPID.
  destruct (Applications s !! PID Application) as [Earlier|] eqn:Hfound; cbn.
  - split_and!; [done..|]. intros Later ->. by rewrite Hfound.
  - split_and!; [apply lookup_insert_eq| |done..|].
    + intros Pid Hne. by rewrite lookup_insert_ne.
    + intros Later ->. by rewrite lookup_insert_eq.
Qed.

(** X2. Removal goes by process id, not by record.  After an application is
    admitted and removed again its process id is gone from the Application
    Registry even when an earlier record held that process id: the entry of the
    earlier record is erased, and only the record passed in is destroyed. *)
Theorem added_then_removed Application s :
  Applications (RemoveAndDestroyApplication Application (AddApplication Application s)) =
    delete (PID Application) (Applications s) ∧
  Trace (RemoveAndDestroyApplication Application (AddApplication Application s)) =
    CallDestroyApplication Application :: Trace s ∧
  (∀ Earlier, GetApplicationFromPID (PID Application) s = Some Earlier →
     GetApplicationFromPID (PID Application)
       (RemoveAndDestroyApplication Application (AddApplication Application s)) = None ∧
     (application_destroyed Earlier
        (RemoveAndDestroyApplication Application (AddApplication Application s)) →
      Earlier = Application ∨ application_destroyed Earlier s)).
Proof.
  unfold RemoveAndDestroyApplication, AddApplication, GetApplicationFromPID,
    application_destroyed.
  destruct (Applications s !! PID Application) as [Earlier|] eqn:Hfound; cbn.
  - rewrite Hfound. cbn. split_and!; [done..|].
    intros ? [= <-]. split; [apply lookup_delete_eq|].
    intros [[= ->]|Hin]%elem_of_cons; auto.
  - rewrite lookup_insert_eq. cbn. split_and!; [|done..].
    by rewrite delete_insert_eq, delete_id.
Qed.

(** ** Entries sit under their own key *)

Lemma keyed_same s s' :
  Windows s' = Windows s → Applications s' = Applications s → keyed s → keyed s'.
Proof. unfold keyed. by intros -> ->. Qed.

Lemma keyed_emit c s : keyed s → keyed (emit c s).
Proof. by apply keyed_same. Qed.

Lemma keyed_AddWindowToCollection os Window s :
  keyed s → keyed (AddWindowToCollection os Window s).2.
Proof.
  intros [Hw Ha]. split.
  - rewrite AddWindowToCollection_Windows.
    destruct (admissible os Window); [|done].
    intros i w [[<- <-]|[_ H]]%lookup_insert_Some; eauto.
  - by rewrite AddWindowToCollection_Applications.
Qed.

Lemma keyed_AddApplicationWindow os Window s :
  keyed s → keyed (AddApplicationWindow os Window s).
Proof.
  intros [Hw Ha]. split.
  - rewrite AddApplicationWindow_Windows.
    destruct (Windows s !! Id Window); [done|].
    destruct (admissible os Window); [|done].
    intros i w [[<- <-]|[_ H]]%lookup_insert_Some; eauto.
  - by rewrite AddApplicationWindow_Applications.
Qed.

Lemma keyed_AddApplicationWindows os WindowList s :
  keyed s → keyed (AddApplicationWindows os WindowList s).
Proof.
  revert s. induction WindowList as [|Window WindowList IH]; intros s H; [done|].
  cbn. by apply IH, keyed_AddApplicationWindow.
Qed.

Lemma keyed_AddApplicationWindowsToCollection os Application s :
  keyed s → keyed (AddApplicationWindowsToCollection os Application s).
Proof.
  unfold AddApplicationWindowsToCollection. intros H.
  destruct (AXLibWindowListForApplication os Application).
  - by apply keyed_AddApplicationWindows, keyed_emit.
  - by apply keyed_emit.
Qed.

Lemma keyed_AddWindowsOfApplications os Apps s :
  keyed s → keyed (AddWindowsOfApplications os Apps s).
Proof.
  revert s. induction Apps as [|Application Apps IH]; intros s H; [done|].
  cbn. by apply IH, keyed_AddApplicationWindowsToCollection.
Qed.

Lemma keyed_AddApplication Application s : keyed s → keyed (AddApplication Application s).
Proof.
  intros [Hw Ha]. unfold AddApplication.
  destruct (Applications s !! PID Application) eqn:Hfound; [done|].
  split; [done|]. cbn.
  intros i a [[<- <-]|[_ H]]%lookup_insert_Some; eauto.
Qed.

Lemma keyed_InitApplications os Apps s :
  keyed s → keyed (InitApplications os Apps s).
Proof.
  revert s. induction Apps as [|Application Apps IH]; intros s H; [done|].
  cbn. apply IH. unfold InitApplication.
  by apply keyed_AddApplicationWindowsToCollection, keyed_emit, keyed_AddApplication.
Qed.

Lemma keyed_run os e s s' : keyed s → run os e s = Some s' → keyed s'.
Proof.
  intros H Hrun. destruct e; cbn in Hrun.
  - simplify_eq. by apply keyed_AddWindowToCollection.
  - simplify_eq. destruct H as [Hw Ha]. split; [|done]. cbn.
    intros i w [_ Hi]%lookup_delete_Some. eauto.
  - apply ApplicationCallback_maps in Hrun as [Hw Ha]. by eapply keyed_same.
  - simplify_eq. unfold ConstructAndAddApplication. cbn.
    apply keyed_AddApplicationWindowsToCollection.
    destruct (AXLibAddApplicationObserver os _);
      repeat apply keyed_emit; by apply keyed_AddApplication, keyed_emit.
  - simplify_eq. destruct H as [Hw Ha]. unfold RemoveAndDestroyApplication.
    apply keyed_emit. destruct (Applications s !! PID Application); [|done].
    split; [done|]. cbn. intros i a [_ Hi]%lookup_delete_Some. eauto.
  - simplify_eq. by apply keyed_AddWindowsOfApplications.
  - simplify_eq. unfold InitState. case_bool_decide; [|done]. cbn.
    by apply keyed_InitApplications, keyed_emit.
Qed.

Lemma reachable_keyed s : reachable s → keyed s.
Proof.
  induction 1 as [|os e s s' _ IH Hrun].
  { split; intros ??; cbn; by rewrite lookup_empty. }
  by eapply (keyed_run os e s s').
Qed.

(** X3. In every reachable state each entry of the Window Registry sits under
    the identifier its record carries, and each entry of the Application
    Registry under the process id its record carries: a lookup by key returns
    a record of that key. *)
Theorem lookups_return_records_of_their_key s :
  reachable s →
  (∀ WindowId Window, GetWindowByID WindowId s = Some Window → Id Window = WindowId) ∧
  (∀ Pid Application, GetApplicationFromPID Pid s = Some Application →
                      PID Application = Pid).
Proof. intros Hreach. exact (reachable_keyed s Hreach). Qed.

Lemma lookups_return_records_of_their_key_witness :
  (∀ WindowId Window, GetWindowByID WindowId desktop_started = Some Window →
                      Id Window = WindowId) ∧
  (∀ Pid Application, GetApplicationFromPID Pid desktop_started = Some Application →
                      PID Application = Pid).
Proof.
  apply lookups_return_records_of_their_key.
  by apply (run_all_reachable desktop [DoInitState] initial); [constructor|].
Defined.

(** ** The router *)

Lemma router_calls_registrations t u :
  Forall (λ c, is_router_call c = true) t →
  registrations (t ++ u) = registrations u ∧ destructions (t ++ u) = destructions u ∧
  ∀ Obs Element Notification,
    active_subscriptions Obs Element Notification (t ++ u) =
    active_subscriptions Obs Element Notification u.
Proof.
  unfold registrations, destructions.
  induction 1 as [|c t Hc _ (IHr & IHd & IHa)]; [done|].
  destruct c; try done; cbn; by split_and!.
Qed.

Lemma CFEqual_eq a b : CFEqual a b = true → a = b.
Proof. apply String.eqb_eq. Qed.

Lemma CFEqual_ne a b : a ≠ b → CFEqual a b = false.
Proof. apply String.eqb_neq. Qed.

#[local] Ltac callback_cases H :=
  unfold ApplicationCallback in H;
  repeat match type of H with
         | (if CFEqual ?a ?b then _ else _) = _ =>
             let E := fresh "E" in destruct (CFEqual a b) eqn:E
         | match ?r with ReferenceApplication _ => _ | ReferenceWindow _ => _ end = _ =>
             destruct r
         end;
  simplify_eq.

(** X4. A notification [ApplicationCallback] has no branch for is ignored: the
    state is left exactly as it was, whatever the reference. *)
Theorem router_ignores_other_notifications os Element Notification Reference s :
  Notification ∉ handled_notifications →
  ApplicationCallback os Element Notification Reference s = Some s.
Proof.
  intros Hnot. unfold ApplicationCallback.
  rewrite !CFEqual_ne; [done|..];
    intros ->; apply Hnot; unfold handled_notifications;
    repeat (first [apply list_elem_of_here|apply list_elem_of_further]).
Qed.

Lemma router_ignores_other_notifications_witness :
  ApplicationCallback desktop 7%positive "AXMainWindowChanged"
    (ReferenceApplication Finder) desktop_started = Some desktop_started.
Proof.
  apply router_ignores_other_notifications.
  unfold handled_notifications. intros Hin.
  repeat (apply elem_of_cons in Hin as [Hin|Hin]; [done|]).
  by apply elem_of_nil in Hin.
Defined.

(** X5. Whatever the notification, the router only reads and announces: both
    registries are unchanged, the calls it makes are among
    [AXLibGetWindowID], [AXLibConstructWindow] and [ConstructEvent], at most
    one event is constructed, and no window is subscribed, unsubscribed or
    destroyed. *)
Theorem router_only_reads_and_announces os Element Notification Reference s s' :
  ApplicationCallback os Element Notification Reference s = Some s' →
  Windows s' = Windows s ∧ Applications s' = Applications s ∧
  (∃ t, Trace s' = t ++ Trace s ∧ Forall (λ c, is_router_call c = true) t ∧
        (length (events t) ≤ 1)%nat) ∧
  registrations (Trace s') = registrations (Trace s) ∧
  destructions (Trace s') = destructions (Trace s) ∧
  (∀ Obs Element' Notification',
     active_subscriptions Obs Element' Notification' (Trace s') =
     active_subscriptions Obs Element' Notification' (Trace s)).
Proof.
  intros Hcall.
  destruct (ApplicationCallback_maps _ _ _ _ _ _ Hcall) as [Hw Ha].
  assert (∃ t, Trace s' = t ++ Trace s ∧ Forall (λ c, is_router_call c = true) t ∧
               (length (events t) ≤ 1)%nat) as (t & Ht & Hcalls & Hone).
  { callback_cases Hcall;
      unfold LookupAndConstructEvent, ConstructEvent, GetWindowByID; cbn;
      try destruct (Windows s !! AXLibGetWindowID os Element);
      first [ by exists []; split_and!; [done|constructor|cbn; lia]
            | by eexists [_]; split_and!; [done|repeat constructor|cbn; lia]
            | by eexists [_; _]; split_and!; [done|repeat constructor|cbn; lia] ]. }
  split_and!; [done..|eauto| | |];
    rewrite Ht; by apply router_calls_registrations.
Qed.

Lemma router_only_reads_and_announces_witness :
  ∃ s', ApplicationCallback desktop 7%positive kAXTitleChangedNotification
          (ReferenceApplication Finder) desktop_started = Some s' ∧
        Windows s' = Windows desktop_started ∧
        registrations (Trace s') = registrations (Trace desktop_started) ∧
        destructions (Trace s') = destructions (Trace desktop_started).
Proof.
  eexists. split; [reflexivity|].
  destruct (router_only_reads_and_announces desktop 7%positive
              kAXTitleChangedNotification (ReferenceApplication Finder)
              desktop_started _ eq_refl) as (Hw & _ & _ & Hr & Hd & _).
  by split_and!.
Defined.

(** X6. In a reachable state every event the router constructs is one of
    three: [ChunkWM_WindowCreated] with the record built from the application
    reference and the element; [ChunkWM_WindowDestroyed] with the window
    reference itself, registered or not; or the event of a resolved
    notification with the record registered under the identifier of the
    element, which carries that identifier. *)
Theorem router_events_and_payloads os Element Notification Reference s s' Event Window :
  reachable s →
  ApplicationCallback os Element Notification Reference s = Some s' →
  events (Trace s') = (Event, Window) :: events (Trace s) →
  (Notification = kAXWindowCreatedNotification ∧ Event = ChunkWM_WindowCreated ∧
   ∃ Application, Reference = ReferenceApplication Application ∧
                  Window = AXLibConstructWindow os Application Element) ∨
  (Notification = kAXUIElementDestroyedNotification ∧
   Event = ChunkWM_WindowDestroyed ∧ Reference = ReferenceWindow Window) ∨
  ((Notification, Event) ∈ resolved_notifications ∧
   GetWindowByID (AXLibGetWindowID os Element) s = Some Window ∧
   Id Window = AXLibGetWindowID os Element).
Proof.
  intros Hreach Hcall Hev.
  destruct (reachable_keyed s Hreach) as [Hkey _].
  assert (∀ k, events (Trace (LookupAndConstructEvent os k Element s)) =
               (Event, Window) :: events (Trace s) →
               k = Event ∧ GetWindowByID (AXLibGetWindowID os Element) s = Some Window ∧
               Id Window = AXLibGetWindowID os Element) as Hlook.
  { intros k. rewrite LookupAndConstructEvent_events.
    destruct (GetWindowByID (AXLibGetWindowID os Element) s) as [w|] eqn:Hw.
    - intros [= <- <-]. split_and!; [done..|]. by apply Hkey.
    - intros Hbad. apply (f_equal length) in Hbad. cbn in Hbad. lia. }
  callback_cases Hcall;
    repeat match goal with H : CFEqual _ _ = true |- _ => apply CFEqual_eq in H end;
    subst.
  - left. cbn in Hev. simplify_eq. eauto.
  - right; left. cbn in Hev. by simplify_eq.
  - right; right. apply Hlook in Hev as (<- & ? & ?). split_and!; [|done..].
    unfold resolved_notifications. apply list_elem_of_here.
  - right; right. apply Hlook in Hev as (<- & ? & ?). split_and!; [|done..].
    unfold resolved_notifications. do 1 apply list_elem_of_further. apply list_elem_of_here.
  - right; right. apply Hlook in Hev as (<- & ? & ?). split_and!; [|done..].
    unfold resolved_notifications. do 2 apply list_elem_of_further. apply list_elem_of_here.
  - right; right. apply Hlook in Hev as (<- & ? & ?). split_and!; [|done..].
    unfold resolved_notifications. do 3 apply list_elem_of_further. apply list_elem_of_here.
  - right; right. apply Hlook in Hev as (<- & ? & ?). split_and!; [|done..].
    unfold resolved_notifications. do 4 apply list_elem_of_further. apply list_elem_of_here.
  - right; right. apply Hlook in Hev as (<- & ? & ?). split_and!; [|done..].
    unfold resolved_notifications. do 5 apply list_elem_of_further. apply list_elem_of_here.
  - apply (f_equal length) in Hev. cbn in Hev. lia.
Qed.

Lemma router_events_and_payloads_witness :
  GetWindowByID (AXLibGetWindowID desktop 7%positive) desktop_started = Some Documents ∧
  Id Documents = AXLibGetWindowID desktop 7%positive.
Proof.
  destruct (router_events_and_payloads desktop 7%positive kAXWindowMovedNotification
              (ReferenceApplication Finder) desktop_started
              (LookupAndConstructEvent desktop ChunkWM_WindowMoved 7%positive
                 desktop_started)
              ChunkWM_WindowMoved Documents) as [H|[H|H]].
  - by apply (run_all_reachable desktop [DoInitState] initial); [constructor|].
  - reflexivity.
  - reflexivity.
  - by destruct H.
  - by destruct H.
  - by destruct H.
Defined.

(** X7. Identifier 0 is never registered, in any reachable state.  So a
    focus-changed, moved, resized, minimized, deminimized or title-changed
    notification for an element the platform gives no window identifier is
    always dropped: the router asks for the identifier and does nothing
    else. *)
Theorem identifier_zero_is_never_registered s :
  reachable s →
  GetWindowByID 0%N s = None ∧
  ∀ os Element Notification Event Reference,
    AXLibGetWindowID os Element = 0%N →
    (Notification, Event) ∈ resolved_notifications →
    ApplicationCallback os Element Notification Reference s =
      Some (emit (CallGetWindowID Element) s).
Proof.
  intros Hreach.
  assert (GetWindowByID 0%N s = None) as Hzero by exact (reachable_no_zero s Hreach).
  split; [done|].
  intros os Element Notification Event Reference Hid Hin.
  assert (∀ k, LookupAndConstructEvent os k Element s =
               emit (CallGetWindowID Element) s) as Hdrop.
  { intros k. unfold LookupAndConstructEvent. rewrite Hid.
    change (GetWindowByID 0%N (emit (CallGetWindowID Element) s))
      with (GetWindowByID 0%N s).
    by rewrite Hzero. }
  unfold resolved_notifications in Hin.
  repeat (apply elem_of_cons in Hin as [Hin|Hin];
          [simplify_eq; cbn; by rewrite Hdrop|]).
  by apply elem_of_nil in Hin.
Qed.

Lemma identifier_zero_is_never_registered_witness :
  ApplicationCallback desktop 10%positive kAXWindowMovedNotification
    (ReferenceApplication Finder) desktop_started =
  Some (emit (CallGetWindowID 10%positive) desktop_started).
Proof.
  destruct (identifier_zero_is_never_registered desktop_started) as [_ Hdrop].
  - by apply (run_all_reachable desktop [DoInitState] initial); [constructor|].
  - apply (Hdrop desktop 10%positive kAXWindowMovedNotification ChunkWM_WindowMoved);
      [reflexivity|].
    unfold resolved_notifications.
    repeat (first [apply list_elem_of_here|apply list_elem_of_further]).
Defined.

(** ** Registering and unregistering compose *)

(** X8. [RemoveWindowFromCollection] after [AddWindowToCollection] of the same
    record leaves the Window Registry without the identifier, whether or not
    the registration succeeded; it is the registry before the two calls
    exactly when the identifier was not registered before.  A record that was
    registered under the identifier is lost. *)
Theorem registered_then_unregistered os Window s :
  Windows (RemoveWindowFromCollection Window (AddWindowToCollection os Window s).2) =
    delete (Id Window) (Windows s) ∧
  (GetWindowByID (Id Window) s = None ↔
   Windows (RemoveWindowFromCollection Window (AddWindowToCollection os Window s).2) =
     Windows s) ∧
  destroy_subscriptions Window
    (RemoveWindowFromCollection Window (AddWindowToCollection os Window s).2) = 0.
Proof.
  assert (Windows (RemoveWindowFromCollection Window
                     (AddWindowToCollection os Window s).2) =
          delete (Id Window) (Windows s)) as Heq.
  { unfold RemoveWindowFromCollection. cbn. rewrite AddWindowToCollection_Windows.
    destruct (admissible os Window); [|done]. apply delete_insert_eq. }
  split_and!; [done| |].
  - rewrite Heq. unfold GetWindowByID. split.
    + apply delete_id.
    + intros Hsame. rewrite <- Hsame. apply lookup_delete_eq.
  - unfold destroy_subscriptions. rewrite RemoveWindowFromCollection_active.
    by rewrite bool_decide_eq_true_2.
Qed.

(** X9. [RemoveWindowFromCollection] goes by identifier.  For a record whose
    identifier is not registered the Window Registry is unchanged, and the
    destroy-notification is unsubscribed all the same.  Whatever record is
    registered under the identifier is erased, other identifiers are kept,
    and a second call changes the registry no further. *)
Theorem unregister_goes_by_identifier Window s :
  (GetWindowByID (Id Window) s = None →
   Windows (RemoveWindowFromCollection Window s) = Windows s) ∧
  Trace (RemoveWindowFromCollection Window s) =
    CallRemoveObserverNotification (Observer (Owner Window)) (Ref Window)
      kAXUIElementDestroyedNotification :: Trace s ∧
  GetWindowByID (Id Window) (RemoveWindowFromCollection Window s) = None ∧
  (∀ WindowId, WindowId ≠ Id Window →
     GetWindowByID WindowId (RemoveWindowFromCollection Window s) =
     GetWindowByID WindowId s) ∧
  Windows (RemoveWindowFromCollection Window (RemoveWindowFromCollection Window s)) =
    Windows (RemoveWindowFromCollection Window s).
Proof.
  unfold RemoveWindowFromCollection, GetWindowByID. cbn. split_and!.
  - apply delete_id.
  - done.
  - apply lookup_delete_eq.
  - intros i Hne. by apply lookup_delete_ne.
  - apply delete_id, lookup_delete_eq.
Qed.

(** ** Discovery *)

Lemma AddApplicationWindows_Windows_congr os WindowList s1 s2 :
  Windows s1 = Windows s2 →
  Windows (AddApplicationWindows os WindowList s1) =
  Windows (AddApplicationWindows os WindowList s2).
Proof.
  revert s1 s2. induction WindowList as [|Window WindowList IH]; intros s1 s2 H; [done|].
  cbn. apply IH. rewrite !AddApplicationWindow_Windows. by rewrite H.
Qed.

Lemma AddApplicationWindowsToCollection_Windows_congr os Application s1 s2 :
  Windows s1 = Windows s2 →
  Windows (AddApplicationWindowsToCollection os Application s1) =
  Windows (AddApplicationWindowsToCollection os Application s2).
Proof.
  intros H. unfold AddApplicationWindowsToCollection.
  destruct (AXLibWindowListForApplication os Application); [|done].
  by apply AddApplicationWindows_Windows_congr.
Qed.

Lemma AddWindowsOfApplications_Windows_congr os Apps s1 s2 :
  Windows s1 = Windows s2 →
  Windows (AddWindowsOfApplications os Apps s1) =
  Windows (AddWindowsOfApplications os Apps s2).
Proof.
  revert s1 s2. induction Apps as [|Application Apps IH]; intros s1 s2 H; [done|].
  cbn. by apply IH, AddApplicationWindowsToCollection_Windows_congr.
Qed.

Lemma AddApplicationWindowsToCollection_dom os Application s :
  dom (Windows (AddApplicationWindowsToCollection os Application s)) =
  dom (Windows s) ∪ admissible_ids os (listed os Application).
Proof.
  unfold AddApplicationWindowsToCollection, listed.
  destruct (AXLibWindowListForApplication os Application); cbn.
  - by rewrite AddApplicationWindows_dom.
  - unfold admissible_ids. cbn. by rewrite (right_id_L ∅ (∪)).
Qed.

Lemma admissible_ids_app os l1 l2 :
  admissible_ids os (l1 ++ l2) = admissible_ids os l1 ∪ admissible_ids os l2.
Proof.
  unfold admissible_ids. by rewrite List.filter_app, fmap_app, list_to_set_app_L.
Qed.

Lemma AddWindowsOfApplications_dom os Apps s :
  dom (Windows (AddWindowsOfApplications os Apps s)) =
  dom (Windows s) ∪ admissible_ids os (listed_all os Apps).
Proof.
  unfold listed_all.
  revert s. induction Apps as [|Application Apps IH]; intros s.
  - unfold admissible_ids. cbn. by rewrite (right_id_L ∅ (∪)).
  - rewrite bind_cons, admissible_ids_app. cbn [AddWindowsOfApplications].
    rewrite IH, AddApplicationWindowsToCollection_dom.
    by rewrite (assoc_L (∪)).
Qed.

Lemma elem_of_admissible_ids os WindowList WindowId :
  WindowId ∈ admissible_ids os WindowList ↔
  ∃ Window, Window ∈ WindowList ∧ Id Window = WindowId ∧ admissible os Window = true.
Proof.
  unfold admissible_ids. rewrite elem_of_list_to_set, list_elem_of_fmap. split.
  - intros (w & -> & Hin). apply list_elem_of_In, filter_In in Hin as [Hin Hadm].
    exists w. by rewrite list_elem_of_In.
  - intros (w & Hin & <- & Hadm). exists w. split; [done|].
    apply list_elem_of_In, filter_In. by rewrite <- list_elem_of_In.
Qed.

(** What one turn of the loop adds to the trace. *)
Lemma AddApplicationWindow_turn os Window s :
  ∃ t, Trace (AddApplicationWindow os Window s) = t ++ Trace s ∧
       Forall (λ c, is_discovery_call c = true) t ∧
       destructions t + registrations t = 1 ∧
       settlements t = [Window] ∧
       (∀ Obs Element Notification Reference,
          CallAddObserverNotification Obs Element Notification Reference
            kAXErrorSuccess ∈ t →
          Reference = Window ∧
          Windows (AddApplicationWindow os Window s) !! Id Window = Some Window).
Proof.
  unfold AddApplicationWindow, GetWindowByID.
  destruct (Windows s !! Id Window) eqn:Hlook.
  - exists [CallDestroyWindow Window].
    split_and!; [done|by repeat constructor|done|done|].
    intros ???? Hin. apply elem_of_cons in Hin as [?|Hin]; [done|].
    by apply elem_of_nil in Hin.
  - unfold AddWindowToCollection. destruct (Id Window =? 0)%N.
    + eexists [_; _]. split_and!; [done|by repeat constructor|done|done|].
      intros ???? Hin. repeat (apply elem_of_cons in Hin as [?|Hin]; [done|]).
      by apply elem_of_nil in Hin.
    + cbn. case_bool_decide as Hs; cbn.
      * eexists [_]. split_and!; [done|by repeat constructor| | |].
        { unfold destructions, registrations. cbn. by rewrite Hs. }
        { unfold settlements. cbn. by rewrite Hs. }
        intros ???? Hin. apply elem_of_cons in Hin as [?|Hin];
          [|by apply elem_of_nil in Hin].
        simplify_eq. split; [done|]. apply lookup_insert_eq.
      * eexists [_; _; _]. split_and!; [done|by repeat constructor| | |].
        { unfold destructions, registrations. cbn.
          by rewrite (bool_decide_eq_false_2 _ Hs). }
        { unfold settlements. cbn. by rewrite (bool_decide_eq_false_2 _ Hs). }
        intros ???? Hin.
        repeat (apply elem_of_cons in Hin as [?|Hin]; [by simplify_eq|]).
        by apply elem_of_nil in Hin.
Qed.

Lemma destructions_app t u : destructions (t ++ u) = destructions t + destructions u.
Proof. unfold destructions. by rewrite List.filter_app, length_app. Qed.

Lemma registrations_app t u : registrations (t ++ u) = registrations t + registrations u.
Proof. unfold registrations. by rewrite List.filter_app, length_app. Qed.

Lemma settlements_app t u : settlements (t ++ u) = settlements t ++ settlements u.
Proof. unfold settlements. apply omap_app. Qed.

Lemma AddApplicationWindows_turns os WindowList s :
  ∃ t, Trace (AddApplicationWindows os WindowList s) = t ++ Trace s ∧
       Forall (λ c, is_discovery_call c = true) t ∧
       destructions t + registrations t = length WindowList ∧
       settlements t = rev WindowList ∧
       (∀ Obs Element Notification Reference,
          CallAddObserverNotification Obs Element Notification Reference
            kAXErrorSuccess ∈ t →
          Reference ∈ WindowList ∧
          Windows (AddApplicationWindows os WindowList s) !! Id Reference =
            Some Reference).
Proof.
  revert s. induction WindowList as [|Window WindowList IH]; intros s; cbn.
  - exists []. split_and!; [done..|]. intros ???? Hin. by apply elem_of_nil in Hin.
  - destruct (AddApplicationWindow_turn os Window s)
      as (t0 & Ht0 & Hc0 & Hn0 & Hset0 & Hs0).
    destruct (IH (AddApplicationWindow os Window s)) as (t & Ht & Hc & Hn & Hset & Hs).
    exists (t ++ t0). split_and!.
    + by rewrite Ht, Ht0, app_assoc.
    + by apply Forall_app.
    + rewrite destructions_app, registrations_app. lia.
    + by rewrite settlements_app, Hset, Hset0.
    + intros o e n w [Hin|Hin]%elem_of_app.
      * destruct (Hs o e n w Hin). split; [by apply list_elem_of_further|done].
      * destruct (Hs0 o e n w Hin) as [-> Hreg]. split; [apply list_elem_of_here|].
        by apply AddApplicationWindows_preserves.
Qed.

(** X10. Discovery accounts for every listed record exactly once: the records
    it destroys and the records whose destroy-notification it gets accepted
    are, taken in the order of the calls, the listed records in the order
    listed (the trace is newest first, hence [rev]).  So every record it
    destroys is a listed one, and the destructions and accepted subscriptions
    it adds number as many as the records listed.  Its calls are the
    enumeration, subscriptions, [printf] and destructions only: it constructs
    no event and unsubscribes nothing.  Every record whose subscription is
    accepted is a listed one and is registered under its identifier when
    discovery returns. *)
Theorem discovery_accounts_for_every_record os Application s :
  ∃ t, Trace (AddApplicationWindowsToCollection os Application s) = t ++ Trace s ∧
       Forall (λ c, is_discovery_call c = true) t ∧
       destructions t + registrations t = length (listed os Application) ∧
       settlements t = rev (listed os Application) ∧
       (∀ Window, CallDestroyWindow Window ∈ t → Window ∈ listed os Application) ∧
       events t = [] ∧
       (∀ Obs Element Notification Reference,
          CallAddObserverNotification Obs Element Notification Reference
            kAXErrorSuccess ∈ t →
          Reference ∈ listed os Application ∧
          GetWindowByID (Id Reference)
            (AddApplicationWindowsToCollection os Application s) = Some Reference).
Proof.
  assert (∀ t, Forall (λ c, is_discovery_call c = true) t → events t = []) as Hev.
  { induction 1 as [|c t Hc _ IH]; [done|]. by destruct c. }
  assert (∀ t WindowList Window,
            settlements t = rev WindowList → CallDestroyWindow Window ∈ t →
            Window ∈ WindowList) as Hdestroyed.
  { intros t WindowList Window Hset Hin.
    assert (Window ∈ settlements t) as Hsettled.
    { apply list_elem_of_omap. by exists (CallDestroyWindow Window). }
    rewrite Hset in Hsettled. apply list_elem_of_In in Hsettled.
    apply list_elem_of_In. by apply in_rev. }
  unfold AddApplicationWindowsToCollection, listed, GetWindowByID.
  destruct (AXLibWindowListForApplication os Application) as [WindowList|]; cbn.
  - destruct (AddApplicationWindows_turns os WindowList
                (emit (CallWindowListForApplication Application) s))
      as (t & Ht & Hc & Hn & Hset & Hs).
    assert (Forall (λ c, is_discovery_call c = true)
              (t ++ [CallWindowListForApplication Application])) as Hall.
    { apply Forall_app. split; [done|by repeat constructor]. }
    exists (t ++ [CallWindowListForApplication Application]). split_and!.
    + by rewrite Ht, <- app_assoc.
    + done.
    + rewrite destructions_app, registrations_app. cbn. lia.
    + rewrite settlements_app, Hset. cbn. by rewrite app_nil_r.
    + intros Window [Hin|Hin]%elem_of_app; [by eapply Hdestroyed|].
      apply elem_of_cons in Hin as [?|Hin]; [done|]. by apply elem_of_nil in Hin.
    + by apply Hev.
    + intros o e n w [Hin|Hin]%elem_of_app; [by apply (Hs o e n)|].
      apply elem_of_cons in Hin as [?|Hin]; [done|]. by apply elem_of_nil in Hin.
  - exists [CallWindowListForApplication Application].
    split_and!; [done|by repeat constructor|done|done| |done|].
    + intros Window Hin. apply elem_of_cons in Hin as [?|Hin]; [done|].
      by apply elem_of_nil in Hin.
    + intros o e n w Hin. apply elem_of_cons in Hin as [?|Hin]; [done|].
      by apply elem_of_nil in Hin.
Qed.

(** X11. Within one enumeration the first admissible record of an identifier
    wins: if the identifier is not registered when discovery starts and no
    record listed earlier with the same identifier is admissible, an
    admissible listed record is the one registered when discovery returns,
    whatever is listed after it. *)
Theorem discovery_registers_the_first_admissible os Application s Before Window After :
  listed os Application = Before ++ Window :: After →
  GetWindowByID (Id Window) s = None →
  (∀ Earlier, Earlier ∈ Before → Id Earlier = Id Window →
              admissible os Earlier = false) →
  admissible os Window = true →
  GetWindowByID (Id Window) (AddApplicationWindowsToCollection os Application s) =
    Some Window.
Proof.
  unfold listed, AddApplicationWindowsToCollection, GetWindowByID.
  intros Hl Hnone Hearlier Hadm.
  destruct (AXLibWindowListForApplication os Application) as [WindowList|];
    cbn in Hl; [|by destruct Before].
  subst WindowList. rewrite AddApplicationWindows_app. cbn.
  apply AddApplicationWindows_preserves.
  rewrite AddApplicationWindow_Windows.
  destruct (Windows (AddApplicationWindows os Before
                       (emit (CallWindowListForApplication Application) s))
              !! Id Window) as [Other|] eqn:Hlook.
  - apply AddApplicationWindows_origin in Hlook as [Hold|(Hin & Hid & Hadm')].
    + cbn in Hold. congruence.
    + rewrite (Hearlier Other Hin Hid) in Hadm'. done.
  - rewrite Hadm. apply lookup_insert_eq.
Qed.

Lemma discovery_registers_the_first_admissible_witness :
  GetWindowByID 8%N (AddApplicationWindowsToCollection desktop Finder initial) =
    Some Downloads.
Proof.
  apply (discovery_registers_the_first_admissible desktop Finder initial
           [Documents] Downloads [Tooltip; Ghost]); [reflexivity|reflexivity| |reflexivity].
  intros Earlier Hin Hid. apply elem_of_cons in Hin as [->|Hin]; [done|].
  by apply elem_of_nil in Hin.
Defined.

(** ** Launching an application *)

Lemma observer_attempts_discovery t :
  Forall (λ c, is_discovery_call c = true) t → observer_attempts t = [].
Proof. induction 1 as [|c t Hc _ IH]; [done|]. by destruct c. Qed.

Lemma observer_attempts_app t u :
  observer_attempts (t ++ u) = observer_attempts t ++ observer_attempts u.
Proof. unfold observer_attempts. apply omap_app. Qed.

Lemma AddApplicationWindowsToCollection_segment os Application s :
  ∃ t, Trace (AddApplicationWindowsToCollection os Application s) = t ++ Trace s ∧
       Forall (λ c, is_discovery_call c = true) t.
Proof.
  unfold AddApplicationWindowsToCollection.
  destruct (AXLibWindowListForApplication os Application) as [WindowList|]; cbn.
  - destruct (AddApplicationWindows_turns os WindowList
                (emit (CallWindowListForApplication Application) s))
      as (t & Ht & Hc & _).
    exists (t ++ [CallWindowListForApplication Application]). split.
    + by rewrite Ht, <- app_assoc.
    + apply Forall_app. split; [done|by repeat constructor].
  - exists [CallWindowListForApplication Application]. split; [done|by repeat constructor].
Qed.

Lemma AddApplicationWindowsToCollection_observer_attempts os Application s :
  observer_attempts (Trace (AddApplicationWindowsToCollection os Application s)) =
  observer_attempts (Trace s).
Proof.
  destruct (AddApplicationWindowsToCollection_segment os Application s) as (t & -> & Hc).
  by rewrite observer_attempts_app, observer_attempts_discovery.
Qed.

Lemma ConstructAndAddApplication_maps os PSN Pid ProcessName s :
  let Application := AXLibConstructApplication os PSN Pid ProcessName in
  Windows (ConstructAndAddApplication os PSN Pid ProcessName s).2 =
    Windows (AddApplicationWindowsToCollection os Application s) ∧
  Applications (ConstructAndAddApplication os PSN Pid ProcessName s).2 =
    Applications (AddApplication Application s).
Proof.
  cbn zeta. unfold ConstructAndAddApplication. cbn [snd]. split.
  - apply AddApplicationWindowsToCollection_Windows_congr.
    destruct (AXLibAddApplicationObserver os _); cbn;
      by rewrite AddApplication_Windows.
  - rewrite AddApplicationWindowsToCollection_Applications.
    destruct (AXLibAddApplicationObserver os _); cbn; unfold AddApplication; cbn;
      by destruct (Applications s !! _).
Qed.


(** ** Start-up *)

Lemma InitApplications_Windows os Apps s :
  Windows (InitApplications os Apps s) = Windows (AddWindowsOfApplications os Apps s).
Proof.
  revert s. induction Apps as [|Application Apps IH]; intros s; [done|].
  cbn. rewrite IH. apply AddWindowsOfApplications_Windows_congr.
  apply AddApplicationWindowsToCollection_Windows_congr.
  cbn. apply AddApplication_Windows.
Qed.

Lemma InitApplications_Applications os Apps s Pid :
  Applications (InitApplications os Apps s) !! Pid =
  match Applications s !! Pid with
  | Some Application => Some Application
  | None => head (List.filter (λ Application, bool_decide (PID Application = Pid)) Apps)
  end.
Proof.
  revert s. induction Apps as [|Application Apps IH]; intros s; cbn.
  { by destruct (Applications s !! Pid). }
  rewrite IH. unfold InitApplication.
  rewrite AddApplicationWindowsToCollection_Applications. cbn.
  unfold AddApplication.
  destruct (decide (PID Application = Pid)) as [<-|Hne].
  - rewrite bool_decide_eq_true_2 by done.
    destruct (Applications s !! PID Application) as [Earlier|] eqn:Hfound.
    + by rewrite Hfound.
    + cbn. by rewrite lookup_insert_eq.
  - rewrite bool_decide_eq_false_2 by done.
    destruct (Applications s !! PID Application) as [Earlier|] eqn:Hfound; [done|].
    cbn. by rewrite lookup_insert_ne.
Qed.

Lemma InitApplications_observer_attempts os Apps s :
  observer_attempts (Trace (InitApplications os Apps s)) =
  rev ((λ Application, (Application, AXLibAddApplicationObserver os Application))
         <$> Apps) ++ observer_attempts (Trace s).
Proof.
  revert s. induction Apps as [|Application Apps IH]; intros s; [done|].
  cbn. rewrite IH. unfold InitApplication.
  rewrite AddApplicationWindowsToCollection_observer_attempts. cbn.
  rewrite AddApplication_Trace. by rewrite <- app_assoc.
Qed.

(** X13. When the mutex is initialised [InitState] registers the running
    applications in the order the platform lists them: a process id resolves
    to the record registered before, else to the first running application
    with that process id, else to nothing.  It attaches an observer to every
    listed application once, in that order, also to one that was not
    registered, and ignores the answer: the Window Registry gains exactly the
    admissible identifiers the listed applications enumerate. *)
Theorem init_state_registers_the_running_applications os s :
  pthread_mutex_init os = 0%Z →
  let Running :=
    AXLibRunningProcesses os
      (Z.lor (Process_Policy_Regular os) (Process_Policy_LSUIElement os)) in
  let s' := (InitState os s).2 in
  (∀ Pid, GetApplicationFromPID Pid s' =
          match GetApplicationFromPID Pid s with
          | Some Application => Some Application
          | None =>
              head (List.filter (λ Application, bool_decide (PID Application = Pid))
                      Running)
          end) ∧
  dom (Windows s') = dom (Windows s) ∪ admissible_ids os (listed_all os Running) ∧
  (∀ WindowId Window, GetWindowByID WindowId s = Some Window →
                      GetWindowByID WindowId s' = Some Window) ∧
  observer_attempts (Trace s') =
    rev ((λ Application, (Application, AXLibAddApplicationObserver os Application))
           <$> Running) ++ observer_attempts (Trace s).
Proof.
  intros Hinit. cbn zeta. unfold InitState, GetApplicationFromPID, GetWindowByID.
  rewrite bool_decide_eq_true_2 by done. cbn [snd].
  split_and!.
  - intros Pid. by rewrite InitApplications_Applications.
  - by rewrite InitApplications_Windows, AddWindowsOfApplications_dom.
  - intros WindowId Window Hreg. rewrite InitApplications_Windows.
    by apply AddWindowsOfApplications_preserves.
  - by rewrite InitApplications_observer_attempts.
Qed.

Lemma init_state_registers_the_running_applications_witness :
  GetApplicationFromPID 100%Z (InitState desktop initial).2 = Some Finder ∧
  dom (Windows (InitState desktop initial).2) = {[7%N; 8%N]} ∧
  observer_attempts (Trace (InitState desktop initial).2) = [(Finder, true)].
Proof.
  destruct (init_state_registers_the_running_applications desktop initial eq_refl)
    as (Happ & Hdom & _ & Hobs).
  split_and!.
  - by rewrite Happ.
  - rewrite Hdom. by vm_compute.
  - by rewrite Hobs.
Defined.

(** ** Refreshing the collection *)

Lemma elem_of_applications_in_order m Application :
  Application ∈ applications_in_order m ↔ ∃ Pid, m !! Pid = Some Application.
Proof.
  unfold applications_in_order. rewrite list_elem_of_fmap. split.
  - intros ([Pid a] & -> & Hin). exists Pid.
    rewrite merge_sort_Permutation in Hin. by apply elem_of_map_to_list in Hin.
  - intros (Pid & Hin). exists (Pid, Application). split; [done|].
    rewrite merge_sort_Permutation. by apply elem_of_map_to_list.
Qed.

(** X14. [UpdateWindowCollection] runs discovery for the registered
    applications and for no other: an identifier is registered afterwards
    exactly if it was before or some registered application lists an
    admissible record with it.  Records registered before stay, and the
    Application Registry is unchanged. *)
Theorem update_discovers_windows_of_registered_applications os s :
  let s' := UpdateWindowCollection os s in
  Applications s' = Applications s ∧
  (∀ WindowId Window, GetWindowByID WindowId s = Some Window →
                      GetWindowByID WindowId s' = Some Window) ∧
  (∀ WindowId,
     is_Some (GetWindowByID WindowId s') ↔
     is_Some (GetWindowByID WindowId s) ∨
     ∃ Pid Application Window,
       GetApplicationFromPID Pid s = Some Application ∧
       Window ∈ listed os Application ∧ Id Window = WindowId ∧
       admissible os Window = true).
Proof.
  cbn zeta. unfold UpdateWindowCollection, GetWindowByID, GetApplicationFromPID.
  split_and!.
  - apply AddWindowsOfApplications_Applications.
  - intros WindowId Window. apply AddWindowsOfApplications_preserves.
  - intros WindowId. rewrite <- !elem_of_dom, AddWindowsOfApplications_dom.
    rewrite elem_of_union, elem_of_admissible_ids. unfold listed_all.
    split; (intros [Hold|Hnew]; [by left|right]).
    + destruct Hnew as (Window & Hin & Hid & Hadm).
      apply list_elem_of_bind in Hin as (Application & Hin & Happ).
      apply elem_of_applications_in_order in Happ as [Pid Happ].
      by exists Pid, Application, Window.
    + destruct Hnew as (Pid & Application & Window & Happ & Hin & Hid & Hadm).
      exists Window. split_and!; [|done..].
      apply list_elem_of_bind. exists Application. split; [done|].
      apply elem_of_applications_in_order. by exists Pid.
Qed.

(** ** What keeps an entry *)

Lemma InitApplications_keeps_applications os Apps s Pid Application :
  Applications s !! Pid = Some Application →
  Applications (InitApplications os Apps s) !! Pid = Some Application.
Proof. intros H. by rewrite InitApplications_Applications, H. Qed.

(** X15. Entries leave the registries through two functions only.  Through any
    other entry point a registered window record stays under its identifier
    unless the call is [AddWindowToCollection] or [RemoveWindowFromCollection]
    for that identifier, and a registered application record stays under its
    process id unless the call is [RemoveAndDestroyApplication] for that
    process id. *)
Theorem entries_leave_only_by_key os e s s' :
  run os e s = Some s' →
  (∀ WindowId Window,
     GetWindowByID WindowId s = Some Window →
     GetWindowByID WindowId s' = Some Window ∨
     ∃ Other, (e = DoAddWindowToCollection Other ∨
               e = DoRemoveWindowFromCollection Other) ∧ Id Other = WindowId) ∧
  (∀ Pid Application,
     GetApplicationFromPID Pid s = Some Application →
     GetApplicationFromPID Pid s' = Some Application ∨
     ∃ Other, e = DoRemoveAndDestroyApplication Other ∧ PID Other = Pid).
Proof.
  unfold GetWindowByID, GetApplicationFromPID.
  destruct e as [Window|Window|Element Notification Reference|PSN Pid' ProcessName
                |Application'| |]; cbn [run]; intros Hrun.
  - simplify_eq. rewrite AddWindowToCollection_Windows,
      AddWindowToCollection_Applications. split; [|by left].
    intros WindowId Registered Hreg.
    destruct (decide (Id Window = WindowId)) as [Heq|Hne]; [right; eauto|left].
    destruct (admissible os Window); [|done]. by rewrite lookup_insert_ne.
  - simplify_eq. unfold RemoveWindowFromCollection. cbn. split; [|by left].
    intros WindowId Registered Hreg.
    destruct (decide (Id Window = WindowId)) as [Heq|Hne]; [right; eauto|left].
    by rewrite lookup_delete_ne.
  - destruct (ApplicationCallback_maps _ _ _ _ _ _ Hrun) as [-> ->].
    split; by left.
  - simplify_eq. split.
    + intros WindowId Registered Hreg. left.
      destruct (ConstructAndAddApplication_maps os PSN Pid' ProcessName s) as [Hw _].
      rewrite Hw. by apply AddApplicationWindowsToCollection_preserves.
    + intros Pid Registered Hreg. left.
      destruct (ConstructAndAddApplication_maps os PSN Pid' ProcessName s) as [_ Ha].
      rewrite Ha. unfold AddApplication.
      destruct (Applications s !! PID _) eqn:Hfound; [done|]. cbn.
      rewrite lookup_insert_ne; [done|]. intros Heq. congruence.
  - simplify_eq. unfold RemoveAndDestroyApplication. cbn. split.
    + intros ???. left. by destruct (Applications s !! PID Application').
    + intros Pid Registered Hreg.
      destruct (decide (PID Application' = Pid)) as [Heq|Hne]; [right; eauto|left].
      destruct (Applications s !! PID Application'); [|done]. cbn.
      by rewrite lookup_delete_ne.
  - simplify_eq. unfold UpdateWindowCollection. split.
    + intros ???. left. by apply AddWindowsOfApplications_preserves.
    + intros ???. left. by rewrite AddWindowsOfApplications_Applications.
  - simplify_eq. unfold InitState. case_bool_decide; cbn; [|split; by left]. split.
    + intros ???. left. rewrite InitApplications_Windows.
      by apply AddWindowsOfApplications_preserves.
    + intros ???. left. by apply InitApplications_keeps_applications.
Qed.

Lemma entries_leave_only_by_key_witness :
  GetWindowByID 7%N (UpdateWindowCollection desktop_later desktop_started) =
    Some Documents.
Proof.
  destruct (entries_leave_only_by_key desktop_later DoUpdateWindowCollection
              desktop_started _ eq_refl) as [Hw _].
  destruct (Hw 7%N Documents eq_refl) as [H|(Other & [H|H] & _)]; done.
Defined.

(** ** Threads: the mutex is released *)

Module ThreadsProgress.

Import Threads.

Lemma end_write_WindowsLock sh : WindowsLock (end_write sh) = WindowsLock sh.
Proof. unfold end_write. by destruct (Writing sh) as [[]|]. Qed.

Lemma holder_start n : holder_in_critical_section (start n).
Proof. intros t. unfold start. cbn. done. Qed.

(** A statement that neither locks nor unlocks, and stays on its side of the
    critical section. *)
Lemma holder_same c t p p' sh' :
  holder_in_critical_section c → Pool c !! t = Some p →
  WindowsLock sh' = WindowsLock (Memory c) →
  in_critical_section p' = in_critical_section p →
  holder_in_critical_section {| Memory := sh'; Pool := <[t := p']> (Pool c) |}.
Proof.
  intros Hheld Hp Hlock Hcrit h. cbn. rewrite Hlock. intros Hh.
  destruct (Hheld h Hh) as (ph & Hph & Hc).
  destruct (decide (h = t)) as [->|Hne].
  - exists p'. split; [apply list_lookup_insert_eq; by eapply lookup_lt_Some|].
    simplify_eq. congruence.
  - exists ph. split; [|done]. by rewrite list_lookup_insert_ne.
Qed.

Lemma holder_lock c t p p' sh' :
  Pool c !! t = Some p → lock t (Memory c) = Some sh' →
  in_critical_section p' = true →
  holder_in_critical_section {| Memory := sh'; Pool := <[t := p']> (Pool c) |}.
Proof.
  intros Hp Hlock Hcrit h. unfold lock in Hlock.
  destruct (WindowsLock (Memory c)); [done|]. simplify_eq. cbn. intros [= <-].
  exists p'. split; [|done]. apply list_lookup_insert_eq. by eapply lookup_lt_Some.
Qed.

Lemma holder_unlock c t p' :
  holder_in_critical_section
    {| Memory := unlock (Memory c); Pool := <[t := p']> (Pool c) |}.
Proof. intros h. cbn. done. Qed.

Lemma holder_step c c' :
  holder_in_critical_section c → step c c' → holder_in_critical_section c'.
Proof.
  intros Hheld Hstep.
  destruct Hstep as [os t next c c' Hstep]. unfold step_config in Hstep.
  destruct (Pool c !! t) as [p|] eqn:Hp; cbn in Hstep; [|done].
  destruct (step_thread os t next p (Memory c)) as [[p' sh']|] eqn:Hthread;
    cbn in Hstep; [|done].
  simplify_eq. rename Hthread into Hstep.
  destruct p; cbn in Hstep.
  all: try (destruct (lock t (Memory c)) as [sh1|] eqn:Hlock; cbn in Hstep; [|done]).
  all: simplify_eq.
  all: try (by eapply holder_lock).
  all: try (by apply holder_unlock).
  all: try (by eapply holder_same; [done..|by rewrite ?end_write_WindowsLock|done]).
  - destruct next; by eapply holder_same.
  - destruct (Id Window =? 0)%N; by eapply holder_same.
  - destruct (subscribes os Window); by eapply holder_same.
Qed.

Lemma reachable_holder n c : reachable n c → holder_in_critical_section c.
Proof.
  induction 1 as [|c c' _ IH Hstep]; [apply holder_start|].
  by eapply holder_step.
Qed.

Lemma reachable_length n c : reachable n c → length (Pool c) = n.
Proof.
  induction 1 as [|c c' _ IH Hstep]; [apply length_replicate|].
  destruct Hstep as [os t next c c' Hstep]. unfold step_config in Hstep.
  destruct (Pool c !! t) as [p|]; cbn in Hstep; [|done].
  destruct (step_thread os t next p (Memory c)) as [[p' sh']|]; cbn in Hstep; [|done].
  simplify_eq. cbn. by rewrite length_insert.
Qed.

(** The statements from a point in the critical section to the unlock. *)
Lemma critical_section_ends os t next p sh :
  in_critical_section p = true →
  ∃ k p' sh', (k ≤ 3)%nat ∧ run_thread os t next k p sh = Some (p', sh') ∧
              WindowsLock sh' = None ∧ in_critical_section p' = false.
Proof.
  intros Hcrit. destruct p; try done.
  all: first [ by exists 3; eexists _, _; split; [lia|]; cbn; split_and!
             | by exists 2; eexists _, _; split; [lia|]; cbn; split_and!
             | by exists 1; eexists _, _; split; [lia|]; cbn; split_and! ].
Qed.

(** A thread is held up only at [pthread_mutex_lock], by another thread. *)
Lemma blocked_by_another os t next c p :
  holder_in_critical_section c → Pool c !! t = Some p →
  step_config os t next c = None →
  ∃ t', t' ≠ t ∧ WindowsLock (Memory c) = Some t'.
Proof.
  intros Hheld Hp Hstep. unfold step_config in Hstep. rewrite Hp in Hstep.
  cbn in Hstep.
  assert (in_critical_section p = false → lock t (Memory c) = None →
          ∃ t', t' ≠ t ∧ WindowsLock (Memory c) = Some t') as Hlock.
  { intros Hout Hl. unfold lock in Hl.
    destruct (WindowsLock (Memory c)) as [h|] eqn:Hh; [|done].
    exists h. split; [|done]. intros ->.
    destruct (Hheld t Hh) as (p0 & Hp0 & Hc0). simplify_eq. congruence. }
  destruct p; cbn in Hstep; try done.
  all: try (destruct (lock t (Memory c)) eqn:Hl; cbn in Hstep; [done|by apply Hlock]).
  all: try (by destruct (find WindowId (Memory c))).
Qed.

(** X16. With any number of threads interleaved in any way, whoever holds
    [WindowsLock] is between a [pthread_mutex_lock] and its
    [pthread_mutex_unlock], and reaches the unlock within three statements of
    its own, so no return path keeps the mutex.  A thread is held up only at
    [pthread_mutex_lock] while another thread holds the mutex, and as long as
    there is a thread, some thread can run its next statement. *)
Theorem mutex_is_always_released n c :
  reachable n c →
  (∀ t, WindowsLock (Memory c) = Some t →
        ∃ p, Pool c !! t = Some p ∧ in_critical_section p = true ∧
             ∀ os next, ∃ k p' sh',
               (k ≤ 3)%nat ∧ run_thread os t next k p (Memory c) = Some (p', sh') ∧
               WindowsLock sh' = None ∧ in_critical_section p' = false) ∧
  (∀ os next t p, Pool c !! t = Some p → step_config os t next c = None →
                  ∃ t', t' ≠ t ∧ WindowsLock (Memory c) = Some t') ∧
  ((0 < n)%nat → ∃ t, ∀ os next, is_Some (step_config os t next c)).
Proof.
  intros Hreach.
  pose proof (reachable_holder n c Hreach) as Hheld.
  pose proof (reachable_length n c Hreach) as Hlen.
  assert (∀ os next t p, Pool c !! t = Some p → step_config os t next c = None →
                         ∃ t', t' ≠ t ∧ WindowsLock (Memory c) = Some t') as Hblocked.
  { intros os next t p. by apply blocked_by_another. }
  split_and!.
  - intros t Ht. destruct (Hheld t Ht) as (p & Hp & Hcrit).
    exists p. split_and!; [done..|]. intros os next.
    by apply critical_section_ends.
  - done.
  - intros Hn.
    assert (∃ t p, Pool c !! t = Some p ∧
                   ∀ t', WindowsLock (Memory c) = Some t' → t' = t) as (t & p & Hp & Hme).
    { destruct (WindowsLock (Memory c)) as [h|] eqn:Hh.
      - destruct (Hheld h Hh) as (p & Hp & _). exists h, p. split; [done|].
        by intros ? [= <-].
      - destruct (lookup_lt_is_Some_2 (Pool c) 0) as [p Hp]; [lia|].
        exists 0, p. split; [done|]. by intros. }
    exists t. intros os next.
    destruct (step_config os t next c) as [c'|] eqn:Hstep; [by eexists|].
    destruct (Hblocked os next t p Hp Hstep) as (t' & Hne & Hl).
    by destruct Hne; apply Hme.
Qed.

Lemma writing_and_waiting_reachable : reachable 2 writing_and_waiting.
Proof.
  by apply (ThreadsFacts.run_schedule_reachable 2 desktop (take 6 register_and_lookup)
              (start 2)); [constructor|].
Qed.

(** Thread 0 is writing and thread 1 waits: thread 0 is two statements from
    its unlock. *)
Lemma mutex_is_always_released_witness :
  WindowsLock (Memory writing_and_waiting) = Some 0 ∧
  ∃ p, Pool writing_and_waiting !! 0 = Some p ∧ in_critical_section p = true.
Proof.
  split; [reflexivity|].
  destruct (mutex_is_always_released 2 writing_and_waiting
              writing_and_waiting_reachable) as (Hheld & _).
  destruct (Hheld 0 eq_refl) as (p & Hp & Hcrit & _). by exists p.
Defined.

End ThreadsProgress.
